(** * Interview practice bot: the session flow of [app.py]

    A shallow embedding of the four parts of [app.py] that carry logic:
    [generate_question], [evaluate_answer], [extract_score] and the
    script body that drives [st.session_state] from the widgets.

    Conventions of the embedding.
    - A Python [str] is a [string]; each character stands for a code
      point below 256.  The character predicates below are Python's own,
      restricted to that range.
    - A Python [float] is an IEEE binary64 value, [spec_float] at
      precision 53 and exponent bound 1024.
    - An exception raised by a call is the [Raises] case of [outcome];
      [exn] tells the instances of [Exception] from those of
      [BaseException] that [except Exception] does not catch.
    - [st.session_state] is passed explicitly; the reads of
      [st.session_state.asked] inside [generate_question] become an
      argument.
    - A run of the script is a function of the widget values, the
      button pressed and the stored session; [st.rerun()] ends the run
      and asks for another one.

    Left out: the check of the API key at the top of the file (the
    script is taken past it), and what the page only displays (titles,
    the average score, the expanders). *)

From Stdlib Require Import String Ascii List Arith Bool ZArith Lia.
From Stdlib Require Import Floats.SpecFloat.
Import ListNotations.
Open Scope string_scope.
Open Scope nat_scope.

(* ================================================================== *)
(** ** Characters and strings as Python sees them *)

(** [str.isspace] on one character, which is also what [\s] of [re]
    matches and what [str.strip] removes. *)
Definition isspace (c : ascii) : bool :=
  let n := nat_of_ascii c in
  ((9 <=? n) && (n <=? 13)) || ((28 <=? n) && (n <=? 32))
  || (n =? 133) || (n =? 160).

(** What [\d] of [re] matches: the decimal digits. *)
Definition isdecimal (c : ascii) : bool :=
  let n := nat_of_ascii c in (48 <=? n) && (n <=? 57).

(** [str.lower] on one character. *)
Definition lower (c : ascii) : ascii :=
  let n := nat_of_ascii c in
  if ((65 <=? n) && (n <=? 90))
     || ((192 <=? n) && (n <=? 222) && negb (n =? 215))
  then ascii_of_nat (n + 32) else c.

(** [bool(s)] for a string: the empty string is falsy. *)
Definition truthy (s : string) : bool :=
  match s with EmptyString => false | String _ _ => true end.

Fixpoint all_chars (p : ascii -> bool) (s : string) : bool :=
  match s with
  | EmptyString => true
  | String c s' => p c && all_chars p s'
  end.

Fixpoint lstrip (s : string) : string :=
  match s with
  | EmptyString => EmptyString
  | String c s' => if isspace c then lstrip s' else s
  end.

Fixpoint rev_onto (s acc : string) : string :=
  match s with
  | EmptyString => acc
  | String c s' => rev_onto s' (String c acc)
  end.

Definition reverse (s : string) : string := rev_onto s EmptyString.

(** [s.strip()]: leading and trailing whitespace removed. *)
Definition strip (s : string) : string :=
  reverse (lstrip (reverse (lstrip s))).

Fixpoint starts_with (p s : string) : bool :=
  match p, s with
  | EmptyString, _ => true
  | String a p', String b s' => Ascii.eqb a b && starts_with p' s'
  | String _ _, EmptyString => false
  end.

(** [needle in hay]. *)
Fixpoint contains (needle hay : string) : bool :=
  starts_with needle hay
  || match hay with
     | EmptyString => false
     | String _ hay' => contains needle hay'
     end.

(** The first [n] characters, [s[:n]]. *)
Fixpoint take (n : nat) (s : string) : string :=
  match n, s with
  | S n', String c s' => String c (take n' s')
  | _, _ => EmptyString
  end.

(** The line feed of a Python literal. *)
Definition nl : string := String (ascii_of_nat 10) EmptyString.

(* ================================================================== *)
(** ** The sidebar settings *)

(** The options of the [st.selectbox] for the role. *)
Inductive Role := SoftwareEngineer | ProductManager | DataAnalyst | Designer.

(** The options of the [st.radio] for the question type; they are the
    keys of the dictionary [question_templates]. *)
Inductive Mode := Technical | Behavioral | SystemDesign.

(* ================================================================== *)
(** ** [generate_question] *)

(** The dictionary of templates.  The f-strings are evaluated when the
    dictionary is built, so the lists hold rendered text. *)
Definition question_templates (domain : string) (mode : Mode) : list string :=
  match mode with
  | Technical =>
      [ if truthy domain
        then "What is your experience with " ++ domain ++ "?"
        else "What programming languages do you know best?";
        if truthy domain
        then "Describe a simple " ++ domain ++ " project you've worked on."
        else "What's your favorite tech tool and why?";
        if truthy domain
        then "How would you explain " ++ domain ++ " to a beginner?"
        else "What's your debugging process?";
        if truthy domain
        then "What interests you about " ++ domain ++ "?"
        else "How do you keep your technical skills updated?";
        "Tell me about your most recent technical project." ]
  | Behavioral =>
      [ "Tell me about yourself.";
        "What's your greatest professional strength?";
        "Why do you want this job?";
        "How do you handle stress?";
        "Describe your ideal work environment." ]
  | SystemDesign =>
      [ "How would you design a simple URL shortener?";
        "Explain how you would build a basic chat application.";
        "How would you design a simple file storage system?";
        "Describe a basic e-commerce checkout flow.";
        "How would you approach designing a simple API?" ]
  end.

(** The text picked from the list: index [asked % len(list)]. *)
Definition selected_template (asked : nat) (domain : string) (mode : Mode)
  : string :=
  let templates := question_templates domain mode in
  let question_index := asked mod length templates in
  nth question_index templates "".

(** The domain twist of the last lines of the function. *)
Definition related_suffix (domain : string) : string :=
  " (Related to " ++ domain ++ ")".

Definition generate_question
  (asked : nat) (role : Role) (domain : string) (mode : Mode) : string :=
  let question := selected_template asked domain mode in
  if truthy domain && negb (contains "domain" question)
  then question ++ related_suffix domain
  else question.

(* ================================================================== *)
(** ** Calls that can raise *)

(** What a call can raise.  [Exception m] is an instance of Python's
    [Exception] (or of a class derived from it) with its message: what
    a failing library call raises.  [BaseException name] is an instance
    of a class under [BaseException] and outside [Exception]:
    [KeyboardInterrupt], [SystemExit], [GeneratorExit]. *)
Inductive exn :=
| Exception (message : string)
| BaseException (name : string).

Inductive outcome (A : Type) : Type :=
| Returns (a : A)
| Raises (e : exn).
Arguments Returns {A} a.
Arguments Raises {A} e.

Definition bind {A B : Type} (m : outcome A) (f : A -> outcome B)
  : outcome B :=
  match m with
  | Returns a => f a
  | Raises e => Raises e
  end.

Notation "x <- m ;; k" := (bind m (fun x => k))
  (at level 61, m at next level, right associativity).

(** [try: body except Exception as e: handler].  The clause catches
    the instances of [Exception]; anything else goes on to the caller. *)
Definition try_except {A : Type} (body : outcome A) (handler : exn -> outcome A)
  : outcome A :=
  match body with
  | Returns a => Returns a
  | Raises (Exception message) => handler (Exception message)
  | Raises (BaseException name) => Raises (BaseException name)
  end.

(* ================================================================== *)
(** ** [evaluate_answer] *)

(** The part of [google.generativeai] the function calls.  Each of the
    three steps can raise. *)
Record GenaiCalls : Type := {
  model : Type;
  response : Type;
  GenerativeModel : string -> outcome model;
  generate_content : model -> string -> outcome response;
  response_text : response -> outcome string
}.

(** The triple-quoted f-string, with the indentation it has in the file. *)
Definition evaluation_prompt (question user_answer : string) : string :=
  "Briefly evaluate this interview answer. Keep it short and simple." ++ nl
  ++ "        Question: " ++ question ++ nl
  ++ "        Answer: " ++ user_answer ++ nl
  ++ "        " ++ nl
  ++ "        Give a score out of 10 and 2-3 sentences of feedback. Format as:"
  ++ nl
  ++ "        Score: X/10" ++ nl
  ++ "        [Your brief feedback here]".

(** The text returned by the [except] branch. *)
Definition fallback_feedback : string :=
  "Score: 7/10" ++ nl
  ++ "Good answer! Consider adding a bit more detail about your specific experiences.".

Definition evaluate_answer
  (api : GenaiCalls) (user_answer question : string) (mode : Mode)
  : outcome string :=
  try_except
    (let prompt := evaluation_prompt question user_answer in
     m <- GenerativeModel api "gemini-1.5-pro" ;;
     r <- generate_content api m prompt ;;
     response_text api r)
    (fun e => Returns fallback_feedback).

(** The three calls inside the [try] block, on a given prompt. *)
Definition model_call (api : GenaiCalls) (prompt : string) : outcome string :=
  m <- GenerativeModel api "gemini-1.5-pro" ;;
  r <- generate_content api m prompt ;;
  response_text api r.

(** The service as a session meets it: its calls return, or fail the
    way the library fails, with an instance of [Exception] (a network
    error, a quota, a blocked response).  A [KeyboardInterrupt] or a
    [SystemExit] during a call stops the process and is no interaction
    of a session. *)
Record Genai : Type := {
  calls :> GenaiCalls;
  library_errors :
    forall prompt e,
      model_call calls prompt = Raises e ->
      exists message, e = Exception message
}.

(* ================================================================== *)
(** ** The fragment of [re] that the score pattern uses *)

Inductive category := CATEGORY_SPACE | CATEGORY_DIGIT.

Definition in_category (k : category) (c : ascii) : bool :=
  match k with
  | CATEGORY_SPACE => isspace c
  | CATEGORY_DIGIT => isdecimal c
  end.

Inductive regex :=
| Eps
| Chr (p : ascii)
| Class (k : category)
| Seq (r1 r2 : regex)
| Alt (r1 r2 : regex)
| Opt (r : regex)
| Star (r : regex)
| Plus (r : regex)
| Group (i : nat) (r : regex).

Infix ">>" := Seq (at level 60, right associativity).

Fixpoint literal (s : string) : regex :=
  match s with
  | EmptyString => Eps
  | String c s' => Chr c >> literal s'
  end.

(** The groups of a match in progress, the latest first. *)
Definition captures := list (nat * string).

Definition cont := string -> captures -> option captures.

(** A literal character under the flag [re.IGNORECASE] or without it. *)
Definition chr_matches (ignorecase : bool) (p c : ascii) : bool :=
  if ignorecase then Ascii.eqb (lower p) (lower c) else Ascii.eqb p c.

(** The greedy loop of [*] and [+]: one more round of [m] first, the
    rest of the pattern after the loop only when that fails.  A round
    that consumes nothing ends the loop. *)
Fixpoint repeat_greedy
  (m : string -> captures -> cont -> option captures)
  (fuel : nat) (s : string) (g : captures) (k : cont) : option captures :=
  match fuel with
  | 0 => k s g
  | S fuel' =>
      match m s g (fun s1 g1 =>
                     if String.length s1 <? String.length s
                     then repeat_greedy m fuel' s1 g1 k
                     else None) with
      | Some r => Some r
      | None => k s g
      end
  end.

(** The backtracking matcher: [rmatch ic r s g k] matches [r] at the
    head of [s] and hands what is left of [s] to [k]; the first way that
    makes [k] succeed wins. *)
Fixpoint rmatch (ic : bool) (r : regex) (s : string) (g : captures) (k : cont)
  {struct r} : option captures :=
  match r with
  | Eps => k s g
  | Chr p =>
      match s with
      | String c s' => if chr_matches ic p c then k s' g else None
      | EmptyString => None
      end
  | Class cat =>
      match s with
      | String c s' => if in_category cat c then k s' g else None
      | EmptyString => None
      end
  | Seq r1 r2 => rmatch ic r1 s g (fun s1 g1 => rmatch ic r2 s1 g1 k)
  | Alt r1 r2 =>
      match rmatch ic r1 s g k with
      | Some x => Some x
      | None => rmatch ic r2 s g k
      end
  | Opt r1 =>
      match rmatch ic r1 s g k with
      | Some x => Some x
      | None => k s g
      end
  | Star r1 => repeat_greedy (rmatch ic r1) (String.length s) s g k
  | Plus r1 =>
      rmatch ic r1 s g
        (fun s1 g1 => repeat_greedy (rmatch ic r1) (String.length s1) s1 g1 k)
  | Group i r1 =>
      rmatch ic r1 s g
        (fun s1 g1 =>
           k s1 ((i, take (String.length s - String.length s1) s) :: g1))
  end.

(** [re.match]: the pattern at the head of the text. *)
Definition re_match (ic : bool) (r : regex) (s : string) : option captures :=
  rmatch ic r s [] (fun _ g => Some g).

(** [re.search]: the first position of the text where the pattern
    matches, from the left. *)
Fixpoint re_search (ic : bool) (r : regex) (s : string) : option captures :=
  match re_match ic r s with
  | Some g => Some g
  | None =>
      match s with
      | EmptyString => None
      | String _ s' => re_search ic r s'
      end
  end.

(** [match.group(i)]. *)
Fixpoint group (i : nat) (m : captures) : option string :=
  match m with
  | [] => None
  | (j, t) :: m' => if i =? j then Some t else group i m'
  end.

(* ================================================================== *)
(** ** [float] of a decimal text *)

Definition float := spec_float.

Definition digit_of (c : ascii) : Z := Z.of_nat (nat_of_ascii c - 48).

Fixpoint decimal_value (acc : Z) (s : string) : Z :=
  match s with
  | EmptyString => acc
  | String c s' => decimal_value (10 * acc + digit_of c)%Z s'
  end.

(** The text before the first point, and the text after it if there is
    a point. *)
Fixpoint split_point (s : string) : string * option string :=
  match s with
  | EmptyString => (EmptyString, None)
  | String c s' =>
      if Ascii.eqb c "." then (EmptyString, Some s')
      else let (a, b) := split_point s' in (String c a, b)
  end.

Definition is_digits (s : string) : bool := truthy s && all_chars isdecimal s.

(** The binary64 value nearest to [m / d], ties to even. *)
Definition float_of_ratio (m : Z) (d : positive) : float :=
  match m with
  | Zpos p => SFdiv 53 1024 (S754_finite false p 0) (S754_finite false d 0)
  | _ => S754_zero false
  end.

(** [float(s)] for the texts [digits] and [digits.digits], which are the
    texts group 1 of the score pattern can hold.  Python's [float]
    reads more forms than these two; every other text is given the
    [ValueError] of a text that is no number. *)
Definition float_of_str (s : string) : outcome float :=
  match split_point s with
  | (i, None) =>
      if is_digits i
      then Returns (float_of_ratio (decimal_value 0 i) 1)
      else Raises (Exception "ValueError")
  | (i, Some f) =>
      if is_digits i && is_digits f
      then Returns (float_of_ratio (decimal_value 0 (i ++ f))
                      (Z.to_pos (10 ^ Z.of_nat (String.length f))))
      else Raises (Exception "ValueError")
  end.

(** The literal [7.0]. *)
Definition float_7_0 : float := S754_finite false 7881299347898368 (-50).

(* ================================================================== *)
(** ** [extract_score] *)

(** The pattern of the source, its pieces set apart by blanks:
    [Score:  \s*  ( \d+  (?: \. \d+ )? )  \s*  (?: \/ | \s* out \s* of \s* )  \s*  10] *)
Definition score_pattern : regex :=
  literal "Score:"
  >> Star (Class CATEGORY_SPACE)
  >> Group 1 (Plus (Class CATEGORY_DIGIT)
              >> Opt (Chr "." >> Plus (Class CATEGORY_DIGIT)))
  >> Star (Class CATEGORY_SPACE)
  >> Alt (Chr "/")
         (Star (Class CATEGORY_SPACE)
          >> literal "out"
          >> Star (Class CATEGORY_SPACE)
          >> literal "of"
          >> Star (Class CATEGORY_SPACE))
  >> Star (Class CATEGORY_SPACE)
  >> literal "10".

Definition extract_score (feedback : string) : outcome float :=
  match re_search true score_pattern feedback with
  | Some m =>
      match group 1 m with
      | Some t => float_of_str t
      | None => Raises (Exception "TypeError")
      end
  | None => Returns float_7_0
  end.

(* ================================================================== *)
(** ** The session state and the widgets *)

(** One entry of [st.session_state.score]: the dictionary appended by
    the Submit handler. *)
Record item := {
  item_question : string;
  item_answer : string;
  item_feedback : string;
  item_score : float
}.

(** The three keys of [st.session_state]. *)
Record session := {
  question : option string;
  asked : nat;
  score : list item
}.

(** The values the initialisation block gives to missing keys. *)
Definition fresh_session : session :=
  {| question := None; asked := 0; score := [] |}.

(** [st.session_state] at the start of a run is either a stored session
    or holds no key at all (a new session, or one that [clear()] has
    emptied); the block [if 'k' not in st.session_state] fills it. *)
Definition initialize (ss : option session) : session :=
  match ss with
  | Some st => st
  | None => fresh_session
  end.

(** The buttons of the page.  A run of the script is caused by one
    widget event, so at most one button reads [True] in a run. *)
Inductive button :=
| NoButton
| ResetButton
| StartPractice
| SubmitButton
| SkipButton
| PracticeAgain.

Definition button_eqb (a b : button) : bool :=
  match a, b with
  | NoButton, NoButton
  | ResetButton, ResetButton
  | StartPractice, StartPractice
  | SubmitButton, SubmitButton
  | SkipButton, SkipButton
  | PracticeAgain, PracticeAgain => true
  | _, _ => false
  end.

(** The widget values of one run.  [num_questions] is the slider with
    bounds 1 and 5. *)
Record widgets := {
  role : Role;
  domain : string;
  mode : Mode;
  num_questions : nat;
  user_answer : string;
  clicked : button
}.

Definition slider_range (w : widgets) : Prop :=
  1 <= num_questions w <= 5.

(** [st.button(label)]. *)
Definition st_button (w : widgets) (b : button) : bool :=
  button_eqb (clicked w) b.

(** The same widget values with no button pressed: what a run started by
    [st.rerun()] reads. *)
Definition no_click (w : widgets) : widgets :=
  {| role := role w; domain := domain w; mode := mode w;
     num_questions := num_questions w; user_answer := user_answer w;
     clicked := NoButton |}.

(* ================================================================== *)
(** ** The script *)

(** How one run of the script ends: at its last line, by [st.rerun()]
    (with the session state it leaves, [None] after [clear()]), or by an
    exception nobody caught. *)
Inductive run_end :=
| Finished (st : session)
| Rerun (ss : option session)
| Uncaught (e : exn) (st : session).

(** [bool(st.session_state.question)]. *)
Definition question_truthy (st : session) : bool :=
  match question st with
  | Some q => truthy q
  | None => false
  end.

(** The lines under the comment "Next question or finish", which close
    both the Submit and the Skip handler; [st] already holds the
    incremented [asked]. *)
Definition next_or_finish (w : widgets) (st : session) : run_end :=
  if asked st <? num_questions w
  then Rerun (Some {| question :=
                        Some (generate_question (asked st) (role w)
                                (domain w) (mode w));
                      asked := asked st; score := score st |})
  else Rerun (Some {| question := None;
                      asked := asked st; score := score st |}).

(** The handler under [if st.button("Submit")], for the pending question
    [q].  [Finished] stands for falling through to the next statement. *)
Definition submit_handler
  (api : Genai) (w : widgets) (st : session) (q : string) : run_end :=
  if st_button w SubmitButton then
    if negb (truthy (strip (user_answer w))) then
      Finished st
    else
      match evaluate_answer api (user_answer w) q (mode w) with
      | Raises e => Uncaught e st
      | Returns feedback =>
          match extract_score feedback with
          | Raises e => Uncaught e st
          | Returns sc =>
              let entry :=
                {| item_question := q; item_answer := user_answer w;
                   item_feedback := feedback; item_score := sc |} in
              next_or_finish w
                {| question := question st; asked := asked st + 1;
                   score := (score st ++ [entry])%list |}
          end
      end
  else Finished st.

(** The handler under [if st.button("Skip")]. *)
Definition skip_handler (w : widgets) (st : session) : run_end :=
  if st_button w SkipButton then
    next_or_finish w
      {| question := question st; asked := asked st + 1; score := score st |}
  else Finished st.

(** The block under [if st.button("Start Practice") or
    st.session_state.question]: the start of a run when no question is
    stored, then the two handlers one after the other. *)
Definition main_block (api : Genai) (w : widgets) (st : session) : run_end :=
  if st_button w StartPractice || question_truthy st then
    let '(st, q) :=
      match question st with
      | None =>
          let q := generate_question 0 (role w) (domain w) (mode w) in
          ({| question := Some q; asked := 0; score := [] |}, q)
      | Some q => (st, q)
      end in
    match submit_handler api w st q with
    | Finished st' => skip_handler w st'
    | r => r
    end
  else Finished st.

(** The condition of the block under the comment "Show results". *)
Definition results_shown (w : widgets) (st : session) : bool :=
  (num_questions w <=? asked st)
  && match score st with [] => false | _ :: _ => true end.

Definition results_block (w : widgets) (st : session) : run_end :=
  if results_shown w st then
    if st_button w PracticeAgain then Rerun None else Finished st
  else Finished st.

(** One run of the script, top to bottom. *)
Definition script (api : Genai) (w : widgets) (ss : option session)
  : run_end :=
  let st := initialize ss in
  if st_button w ResetButton then Rerun None
  else
    match main_block api w st with
    | Finished st' => results_block w st'
    | r => r
    end.

(** A user interaction: the run it causes, and the runs [st.rerun()]
    asks for after it.  [None] when the runs have not settled within
    [fuel]. *)
Fixpoint run (fuel : nat) (api : Genai) (w : widgets) (ss : option session)
  : option session :=
  match fuel with
  | 0 => None
  | S fuel' =>
      match script api w ss with
      | Finished st => Some st
      | Uncaught _ st => Some st
      | Rerun ss' => run fuel' api (no_click w) ss'
      end
  end.

(** The session state an interaction leaves. *)
Definition interact (api : Genai) (w : widgets) (st : session) : session :=
  match run 2 api w (Some st) with
  | Some st' => st'
  | None => st
  end.

(** A sequence of interactions, each with its own widget values and its
    own behaviour of the outside service. *)
Definition event := (Genai * widgets)%type.

Fixpoint interactions (evs : list event) (st : session) : session :=
  match evs with
  | [] => st
  | (api, w) :: evs' => interactions evs' (interact api w st)
  end.

(** The screens of the session flow, read off the two conditions under
    which the script renders the question and the results. *)
Definition ASKING (st : session) : Prop := question_truthy st = true.

Definition COMPLETE (w : widgets) (st : session) : Prop :=
  question st = None /\ results_shown w st = true.

(* ================================================================== *)
(** * The vocabulary of the properties

    What the statements below speak of: texts that hold a score phrase,
    failing model calls, the steps of a run, the states a session can
    reach; and the sample values used to run the script. *)


(** The text in slot [i] of the Technical list for a given domain. *)
Definition technical_slot (i : nat) (domain : string) : string :=
  nth i (question_templates domain Technical) "".

(** A slot is domain-conditional when its text depends on the domain. *)
Definition domain_conditional (i : nat) : Prop :=
  exists d1 d2, technical_slot i d1 <> technical_slot i d2.

(** The model call fails: one of its three steps raises. *)
Definition call_fails (api : Genai) (prompt : string) : Prop :=
  exists e, model_call api prompt = Raises e.

(** Calls that all raise a library error. *)
Definition failing_calls : GenaiCalls :=
  {| model := unit; response := unit;
     GenerativeModel := fun _ => Raises (Exception "quota exceeded");
     generate_content := fun _ _ => Raises (Exception "network error");
     response_text := fun _ => Raises (Exception "blocked response") |}.

(** A service whose every call raises. *)
Definition failing_api : Genai :=
  {| calls := failing_calls;
     library_errors :=
       fun prompt e (H : model_call failing_calls prompt = Raises e) =>
         ex_intro (fun message => e = Exception message) "quota exceeded"
           (eq_sym (f_equal (fun o => match o with
                                      | Raises x => x
                                      | Returns _ => e
                                      end) H)) |}.

(** Calls that are interrupted from the keyboard while the request is
    under way. *)
Definition interrupted_calls : GenaiCalls :=
  {| model := unit; response := unit;
     GenerativeModel := fun _ => Returns tt;
     generate_content := fun _ _ => Raises (BaseException "KeyboardInterrupt");
     response_text := fun _ => Returns "Score: 9/10" |}.

Ltac each_char c :=
  destruct c as [[] [] [] [] [] [] [] []]; vm_compute;
  try congruence; try tauto; auto.

(** [s.lower()]. *)
Fixpoint lowercase (s : string) : string :=
  match s with
  | EmptyString => EmptyString
  | String c s' => String (lower c) (lowercase s')
  end.

(** The text [t] is the literal [p] up to the flag. *)
Fixpoint same_text (ic : bool) (p t : string) : bool :=
  match p, t with
  | EmptyString, EmptyString => true
  | String a p', String b t' => chr_matches ic a b && same_text ic p' t'
  | _, _ => false
  end.

(** The text does not go on with a character of the category. *)
Definition stops (cat : category) (s : string) : Prop :=
  match s with
  | String c _ => in_category cat c = false
  | EmptyString => True
  end.

(** A run of one character or more, all of one category. *)
Definition run_of (cat : category) (w : string) : Prop :=
  truthy w = true /\ all_chars (in_category cat) w = true.

(** The texts the claim about [extract_score] speaks of. *)
Definition blank (w : string) : Prop := all_chars isspace w = true.

Definition digits (d : string) : Prop := is_digits d = true.

(** A number as the pattern reads one: digits, or digits, a point and
    digits. *)
Definition number (N : string) : Prop :=
  digits N \/ exists i f, N = i ++ "." ++ f /\ digits i /\ digits f.

(** What stands between the number and the 10: a slash, or the words
    "out" and "of" in any case with optional blanks around them. *)
Definition separator (sep : string) : Prop :=
  sep = "/"
  \/ exists a o b f c,
       sep = a ++ o ++ b ++ f ++ c
       /\ blank a /\ lowercase o = "out" /\ blank b
       /\ lowercase f = "of" /\ blank c.

(** "Score:" in any case, a number [N], then "/10" or "out of 10", with
    optional blanks between the pieces. *)
Definition score_phrase (N m : string) : Prop :=
  exists kw w1 w2 sep w3,
    m = kw ++ w1 ++ N ++ w2 ++ sep ++ w3 ++ "10"
    /\ lowercase kw = "score:" /\ blank w1 /\ number N /\ blank w2
    /\ separator sep /\ blank w3.

Definition SPACES : regex := Star (Class CATEGORY_SPACE).

Definition NUMBER : regex :=
  Plus (Class CATEGORY_DIGIT) >> Opt (Chr "." >> Plus (Class CATEGORY_DIGIT)).

Definition SEPARATOR : regex :=
  Alt (Chr "/")
      (SPACES >> literal "out" >> SPACES >> literal "of" >> SPACES).

Definition TAIL : regex := SPACES >> SEPARATOR >> SPACES >> literal "10".

(** The text does not go on with a digit or a point. *)
Definition stops_number (s : string) : Prop :=
  match s with
  | String c _ => isdecimal c = false /\ chr_matches true "." c = false
  | EmptyString => True
  end.

(** A score phrase with the number [N] stands in [feedback] right after
    the text [pre]. *)
Definition score_at (N pre feedback : string) : Prop :=
  exists m post, feedback = pre ++ m ++ post /\ score_phrase N m.

(** The state an interaction leaves, read off its first run. *)
Definition settle (r : run_end) : session :=
  match r with
  | Finished st => st
  | Uncaught _ st => st
  | Rerun ss => initialize ss
  end.

(** The state after the Submit or the Skip handler has counted one more
    question: the next question when one is left, none otherwise. *)
Definition advanced (w : widgets) (st : session) (added : list item)
  : session :=
  {| question :=
       if asked st + 1 <? num_questions w
       then Some (generate_question (asked st + 1) (role w) (domain w)
                    (mode w))
       else None;
     asked := asked st + 1;
     score := (score st ++ added)%list |}.

(** The first question of a run. *)
Definition started (w : widgets) : session :=
  {| question := Some (generate_question 0 (role w) (domain w) (mode w));
     asked := 0; score := [] |}.

(** The entry the Submit handler appends. *)
Definition entry_of (q answer feedback : string) (sc : float) : item :=
  {| item_question := q; item_answer := answer;
     item_feedback := feedback; item_score := sc |}.

Definition sample_widgets (n : nat) (answer : string) (b : button) : widgets :=
  {| role := SoftwareEngineer; domain := ""; mode := Behavioral;
     num_questions := n; user_answer := answer; clicked := b |}.

(** Calls that answer every prompt with the same text. *)
Definition canned_calls (reply : string) : GenaiCalls :=
  {| model := unit; response := unit;
     GenerativeModel := fun _ => Returns tt;
     generate_content := fun _ _ => Returns tt;
     response_text := fun _ => Returns reply |}.

(** A service that answers every prompt with the same text. *)
Definition canned_api (reply : string) : Genai :=
  {| calls := canned_calls reply;
     library_errors :=
       fun prompt e (H : model_call (canned_calls reply) prompt = Raises e) =>
         match eq_ind (Returns reply)
                 (fun o => match o with
                           | Returns _ => True
                           | Raises _ => False
                           end) I (Raises e) H
         return exists message, e = Exception message with end |}.

(** A Submit with an answer the handler accepts. *)
Definition is_submit (ev : event) : bool :=
  button_eqb (clicked (snd ev)) SubmitButton
  && truthy (strip (user_answer (snd ev))).

Definition is_skip (ev : event) : bool :=
  button_eqb (clicked (snd ev)) SkipButton.

(** A submit-or-skip action of a run of [n] questions. *)
Definition action (n : nat) (ev : event) : Prop :=
  num_questions (snd ev) = n /\ (is_submit ev = true \/ is_skip ev = true).

(** The states a session can be in when the slider stays at [n] from
    its first run on. *)
Inductive reachable (n : nat) : session -> Prop :=
| reach_fresh : reachable n fresh_session
| reach_interact (api : Genai) (w : widgets) (st : session) :
    reachable n st -> num_questions w = n ->
    reachable n (interact api w st).

(** What the induction carries: a pending question is a real text and
    leaves room for one more count. *)
Definition good (n : nat) (st : session) : Prop :=
  asked st <= n
  /\ length (score st) <= asked st
  /\ (forall q, question st = Some q -> truthy q = true /\ asked st < n).

(** A float that is zero, a positive number or plus infinity: neither
    NaN nor below zero. *)
Definition nonnegative (x : float) : bool :=
  match x with
  | S754_zero false | S754_finite false _ _ | S754_infinity false => true
  | _ => false
  end.


(** The states a session can be in, the slider free to move within its
    bounds from one interaction to the next. *)
Inductive reachable_session : session -> Prop :=
| session_fresh : reachable_session fresh_session
| session_interact (api : Genai) (w : widgets) (st : session) :
    reachable_session st -> slider_range w ->
    reachable_session (interact api w st).

(** What holds of a stored entry. *)
Definition entry_ok (it : item) : Prop :=
  extract_score (item_feedback it) = Returns (item_score it)
  /\ truthy (strip (item_answer it)) = true
  /\ truthy (item_question it) = true.

(** What the induction over [reachable_session] carries. *)
Definition sound (st : session) : Prop :=
  length (score st) <= asked st
  /\ asked st <= 5
  /\ (forall q, question st = Some q -> truthy q = true /\ asked st < 5)
  /\ Forall entry_ok (score st).

(** The same widget values with another role selected. *)
Definition with_role (r : Role) (w : widgets) : widgets :=
  {| role := r; domain := domain w; mode := mode w;
     num_questions := num_questions w; user_answer := user_answer w;
     clicked := clicked w |}.

(** The widget values of a Submit with the answer [a], the sidebar as in
    [w]. *)
Definition answering (w : widgets) (a : string) : widgets :=
  {| role := role w; domain := domain w; mode := mode w;
     num_questions := num_questions w; user_answer := a;
     clicked := SubmitButton |}.

(** A sequence of Submits, each with the service as it behaves then and
    the answer typed. *)
Definition submissions (w : widgets) (l : list (Genai * string))
  : list event :=
  map (fun p => (fst p, answering w (snd p))) l.

(** The question of the sidebar [w] at the count [i]. *)
Definition question_at (w : widgets) (i : nat) : string :=
  generate_question i (role w) (domain w) (mode w).

(* ================================================================== *)
(** * Properties *)

(** ** Strings *)

Lemma append_empty_r (s : string) : s ++ "" = s.
Proof. induction s as [|c s IH]; simpl; [reflexivity | now rewrite IH]. Qed.

Lemma append_assoc (a b c : string) : (a ++ b) ++ c = a ++ (b ++ c).
Proof. induction a as [|x a IH]; simpl; [reflexivity | now rewrite IH]. Qed.

Lemma length_append (a b : string) :
  String.length (a ++ b) = String.length a + String.length b.
Proof. induction a as [|x a IH]; simpl; [reflexivity | now rewrite IH]. Qed.


Lemma truthy_true (s : string) : truthy s = true <-> s <> "".
Proof. destruct s; simpl; split; congruence. Qed.






(* ------------------------------------------------------------------ *)
(** ** The question generator *)

Lemma question_templates_length (domain : string) (mode : Mode) :
  length (question_templates domain mode) = 5.
Proof. now destruct mode. Qed.

Lemma selected_template_period (asked : nat) (domain : string) (mode : Mode) :
  selected_template (asked + 5) domain mode
  = selected_template asked domain mode.
Proof.
  unfold selected_template. rewrite question_templates_length.
  replace (asked + 5) with (asked + 1 * 5) by lia.
  now rewrite Nat.Div0.mod_add.
Qed.

(** C7.  The question is a function of (role, domain, mode, asked) alone.
    It is built on the template at index [asked mod 5] of the list of
    the mode, an index inside the list of five: it is that template,
    followed by the domain suffix or by nothing.  The question at
    [asked + 5] is the question at [asked]. *)
Theorem generate_question_cycles
  (asked : nat) (role : Role) (domain : string) (mode : Mode) :
  let template := nth (asked mod 5) (question_templates domain mode) "" in
  selected_template asked domain mode = template
  /\ asked mod 5 < length (question_templates domain mode)
  /\ nth_error (question_templates domain mode) (asked mod 5) = Some template
  /\ generate_question asked role domain mode
     = template
       ++ (if truthy domain && negb (contains "domain" template)
           then " (Related to " ++ domain ++ ")"
           else "")
  /\ generate_question (asked + 5) role domain mode
     = generate_question asked role domain mode.
Proof.
  cbv zeta.
  assert (Hsel : selected_template asked domain mode
                 = nth (asked mod 5) (question_templates domain mode) "").
  { unfold selected_template. now rewrite question_templates_length. }
  assert (Hlt : asked mod 5 < length (question_templates domain mode)).
  { rewrite question_templates_length. apply Nat.mod_upper_bound. lia. }
  split; [exact Hsel | split; [exact Hlt | split; [| split]]].
  - now apply nth_error_nth'.
  - unfold generate_question. rewrite Hsel.
    destruct (truthy domain && negb (contains "domain" _)).
    + reflexivity.
    + now rewrite append_empty_r.
  - unfold generate_question. now rewrite selected_template_period.
Qed.



Lemma domain_conditional_first_four (i : nat) :
  i < 4 -> domain_conditional i.
Proof.
  intros H. exists "", "x".
  destruct i as [|[|[|[|i]]]]; try lia; discriminate.
Qed.

(** C8, as the claim states it, fails: the Technical list has four
    domain-conditional slots, not three. *)
Lemma technical_four_conditional_slots :
  exists l : list nat,
    NoDup l /\ length l = 4
    /\ Forall (fun i => i < 5 /\ domain_conditional i) l.
Proof.
  exists [0; 1; 2; 3]. split; [| split].
  - repeat constructor; simpl; intuition lia.
  - reflexivity.
  - repeat constructor; try lia; apply domain_conditional_first_four; lia.
Qed.

(** C8, amended.  In Technical mode exactly four of the five templates
    are domain-conditional, the slots 0 to 3: with a non-empty domain
    their text has the domain put in, with an empty domain it is a
    generic phrasing; the last slot has the same text for every
    domain. *)
Theorem technical_templates_by_domain :
  (forall i, i < 5 -> (domain_conditional i <-> i < 4))
  /\ (forall d, d <> "" ->
        technical_slot 0 d = "What is your experience with " ++ d ++ "?"
        /\ technical_slot 1 d
           = "Describe a simple " ++ d ++ " project you've worked on."
        /\ technical_slot 2 d = "How would you explain " ++ d ++ " to a beginner?"
        /\ technical_slot 3 d = "What interests you about " ++ d ++ "?")
  /\ (technical_slot 0 "" = "What programming languages do you know best?"
      /\ technical_slot 1 "" = "What's your favorite tech tool and why?"
      /\ technical_slot 2 "" = "What's your debugging process?"
      /\ technical_slot 3 "" = "How do you keep your technical skills updated?")
  /\ (forall d,
        technical_slot 4 d = "Tell me about your most recent technical project.").
Proof.
  split; [| split; [| split]].
  - intros i Hi. split.
    + intros (d1 & d2 & H).
      destruct (Nat.lt_ge_cases i 4) as [|Hge]; [assumption |].
      assert (i = 4) by lia. subst i. now destruct H.
    + apply domain_conditional_first_four.
  - intros d Hd. apply truthy_true in Hd.
    unfold technical_slot. simpl. now rewrite Hd.
  - now repeat split.
  - reflexivity.
Qed.

Lemma technical_templates_by_domain_witness :
  technical_slot 0 "Python" = "What is your experience with Python?"
  /\ (domain_conditional 3 <-> 3 < 4).
Proof.
  split.
  - apply (proj1 (proj2 technical_templates_by_domain) "Python"). discriminate.
  - apply (proj1 technical_templates_by_domain 3). lia.
Defined.

(* ------------------------------------------------------------------ *)
(** ** The answer evaluator *)

Lemma call_fails_steps (api : Genai) (prompt : string) :
  call_fails api prompt
  <-> (exists e, GenerativeModel api "gemini-1.5-pro" = Raises e)
      \/ (exists m e, GenerativeModel api "gemini-1.5-pro" = Returns m
                      /\ generate_content api m prompt = Raises e)
      \/ (exists m r e, GenerativeModel api "gemini-1.5-pro" = Returns m
                        /\ generate_content api m prompt = Returns r
                        /\ response_text api r = Raises e).
Proof.
  unfold call_fails, model_call.
  destruct (GenerativeModel api "gemini-1.5-pro") as [m | e0] eqn:E1; simpl.
  - destruct (generate_content api m prompt) as [r | e1] eqn:E2; simpl.
    + split.
      * intros [e He]. right. right. now exists m, r, e.
      * intros [[e He] | [(m' & e & Hm & He) | (m' & r' & e & Hm & Hr & He)]].
        -- discriminate.
        -- injection Hm as <-. congruence.
        -- injection Hm as <-. rewrite E2 in Hr. injection Hr as <-.
           now exists e.
    + split.
      * intros _. right. left. now exists m, e1.
      * intros _. now exists e1.
  - split.
    + intros _. left. now exists e0.
    + intros _. now exists e0.
Qed.

Lemma evaluate_answer_success
  (api : GenaiCalls) (user_answer question text : string) (mode : Mode) :
  model_call api (evaluation_prompt question user_answer) = Returns text ->
  evaluate_answer api user_answer question mode = Returns text.
Proof.
  unfold evaluate_answer, model_call. cbv zeta. now intros ->.
Qed.

(** An instance of [Exception] raised inside the [try] is caught. *)
Lemma evaluate_answer_caught
  (api : GenaiCalls) (user_answer question message : string) (mode : Mode) :
  model_call api (evaluation_prompt question user_answer)
  = Raises (Exception message) ->
  evaluate_answer api user_answer question mode = Returns fallback_feedback.
Proof.
  unfold evaluate_answer, model_call. cbv zeta. now intros ->.
Qed.

(** Anything else raised inside the [try] passes the [except] clause. *)
Lemma evaluate_answer_passed
  (api : GenaiCalls) (user_answer question name : string) (mode : Mode) :
  model_call api (evaluation_prompt question user_answer)
  = Raises (BaseException name) ->
  evaluate_answer api user_answer question mode
  = Raises (BaseException name).
Proof.
  unfold evaluate_answer, model_call. cbv zeta. now intros ->.
Qed.

Lemma evaluate_answer_failure
  (api : Genai) (user_answer question : string) (mode : Mode) :
  call_fails api (evaluation_prompt question user_answer) ->
  evaluate_answer api user_answer question mode = Returns fallback_feedback.
Proof.
  intros [e He].
  destruct (library_errors api _ _ He) as [message ->].
  now apply (evaluate_answer_caught api _ _ message).
Qed.

Lemma evaluate_answer_returns
  (api : Genai) (user_answer question : string) (mode : Mode) :
  exists text, evaluate_answer api user_answer question mode = Returns text.
Proof.
  destruct (model_call api (evaluation_prompt question user_answer))
    as [text | e] eqn:E.
  - exists text. now apply evaluate_answer_success.
  - exists fallback_feedback. apply evaluate_answer_failure. now exists e.
Qed.

(** C5, as the claim states it, fails: a [KeyboardInterrupt] raised
    while the request is under way makes the model call fail, and
    [except Exception] does not catch it: the evaluator returns no
    fallback text and the exception reaches its caller. *)
Lemma keyboard_interrupt_propagates :
  model_call interrupted_calls
    (evaluation_prompt "Tell me about yourself." "I am diligent.")
  = Raises (BaseException "KeyboardInterrupt")
  /\ evaluate_answer interrupted_calls "I am diligent."
       "Tell me about yourself." Behavioral
     = Raises (BaseException "KeyboardInterrupt").
Proof. split; reflexivity. Qed.

(** C5, amended.  Whatever the answer, the question and the mode, when
    the model call fails with an instance of [Exception] the evaluator
    returns the one fixed fallback text, which begins with "Score:
    7/10", and the exception does not reach the caller; an exception
    outside [Exception] raised by the call is not caught.  So whatever
    the evaluator raises is such an exception, raised by the call. *)
Theorem evaluate_answer_fallback
  (api : GenaiCalls) (user_answer question : string) (mode : Mode) :
  let call := model_call api (evaluation_prompt question user_answer) in
  (forall message,
      call = Raises (Exception message) ->
      evaluate_answer api user_answer question mode
      = Returns fallback_feedback)
  /\ starts_with "Score: 7/10" fallback_feedback = true
  /\ (forall name,
        call = Raises (BaseException name) ->
        evaluate_answer api user_answer question mode
        = Raises (BaseException name))
  /\ (forall e,
        evaluate_answer api user_answer question mode = Raises e ->
        exists name, e = BaseException name /\ call = Raises e).
Proof.
  cbv zeta. split; [| split; [| split]].
  - intros message. apply evaluate_answer_caught.
  - reflexivity.
  - intros name. apply evaluate_answer_passed.
  - intros e He.
    destruct (model_call api (evaluation_prompt question user_answer))
      as [text | [message | name]] eqn:E.
    + rewrite (evaluate_answer_success api _ _ text mode E) in He.
      discriminate.
    + rewrite (evaluate_answer_caught api _ _ message mode E) in He.
      discriminate.
    + rewrite (evaluate_answer_passed api _ _ name mode E) in He.
      injection He as <-. now exists name.
Qed.

Lemma failing_api_fails (prompt : string) : call_fails failing_api prompt.
Proof. now exists (Exception "quota exceeded"). Qed.

Lemma evaluate_answer_fallback_witness :
  evaluate_answer failing_api "I am diligent." "Tell me about yourself."
    Behavioral
  = Returns fallback_feedback.
Proof.
  apply (proj1 (evaluate_answer_fallback failing_calls "I am diligent."
                  "Tell me about yourself." Behavioral)
           "quota exceeded").
  reflexivity.
Defined.

(* ------------------------------------------------------------------ *)
(** ** Characters of the score pattern *)

Lemma digit_not_space (c : ascii) : isdecimal c = true -> isspace c = false.
Proof. each_char c. Qed.

Lemma digit_not_point (c : ascii) :
  isdecimal c = true -> chr_matches true "." c = false.
Proof. each_char c. Qed.

Lemma space_not_digit (c : ascii) : isspace c = true -> isdecimal c = false.
Proof. each_char c. Qed.

Lemma space_not_point (c : ascii) :
  isspace c = true -> chr_matches true "." c = false.
Proof. each_char c. Qed.

Lemma letter_o_facts (c : ascii) :
  lower c = "o"%char ->
  isspace c = false /\ isdecimal c = false
  /\ chr_matches true "." c = false /\ chr_matches true "/" c = false.
Proof. each_char c. Qed.

Lemma slash_only (c : ascii) : chr_matches true "/" c = true -> c = "/"%char.
Proof. each_char c. Qed.

Lemma one_only (c : ascii) : lower c = "1"%char -> c = "1"%char.
Proof. each_char c. Qed.

Lemma zero_only (c : ascii) : lower c = "0"%char -> c = "0"%char.
Proof. each_char c. Qed.

Lemma chr_matches_lower (p c : ascii) :
  chr_matches true p c = true <-> lower p = lower c.
Proof. unfold chr_matches. apply Ascii.eqb_eq. Qed.

Lemma same_text_lowercase (p t : string) :
  same_text true p t = true <-> lowercase p = lowercase t.
Proof.
  revert t. induction p as [|a p IH]; intros [|b t];
    cbn [same_text lowercase]; try (split; congruence).
  rewrite andb_true_iff, chr_matches_lower, IH. split.
  - intros [-> ->]. reflexivity.
  - intros H. injection H as H1 H2. now split.
Qed.

(* ------------------------------------------------------------------ *)
(** ** The matcher on the pieces of the pattern *)

Lemma rmatch_seq ic r1 r2 s g k :
  rmatch ic (r1 >> r2) s g k
  = rmatch ic r1 s g (fun s1 g1 => rmatch ic r2 s1 g1 k).
Proof. reflexivity. Qed.

Lemma rmatch_group ic i r s g k :
  rmatch ic (Group i r) s g k
  = rmatch ic r s g
      (fun s1 g1 =>
         k s1 ((i, take (String.length s - String.length s1) s) :: g1)).
Proof. reflexivity. Qed.

Lemma rmatch_alt ic r1 r2 s g k :
  rmatch ic (Alt r1 r2) s g k
  = match rmatch ic r1 s g k with
    | Some x => Some x
    | None => rmatch ic r2 s g k
    end.
Proof. reflexivity. Qed.

Lemma rmatch_opt ic r s g k :
  rmatch ic (Opt r) s g k
  = match rmatch ic r s g k with
    | Some x => Some x
    | None => k s g
    end.
Proof. reflexivity. Qed.

Lemma rmatch_chr ic p s g k :
  rmatch ic (Chr p) s g k
  = match s with
    | String c s' => if chr_matches ic p c then k s' g else None
    | EmptyString => None
    end.
Proof. reflexivity. Qed.

Lemma rmatch_star_class ic cat s g k :
  rmatch ic (Star (Class cat)) s g k
  = match s with
    | String c s' =>
        if in_category cat c
        then match rmatch ic (Star (Class cat)) s' g k with
             | Some x => Some x
             | None => k s g
             end
        else k s g
    | EmptyString => k s g
    end.
Proof.
  destruct s as [|c s']; [reflexivity |].
  cbn [rmatch String.length repeat_greedy].
  destruct (in_category cat c); [| reflexivity].
  replace (String.length s' <? S (String.length s')) with true
    by (symmetry; apply Nat.ltb_lt; lia).
  reflexivity.
Qed.

Lemma rmatch_plus_class ic cat s g k :
  rmatch ic (Plus (Class cat)) s g k
  = match s with
    | String c s' =>
        if in_category cat c then rmatch ic (Star (Class cat)) s' g k
        else None
    | EmptyString => None
    end.
Proof. destruct s as [|c s']; reflexivity. Qed.

(** A greedy loop over a category takes the whole run when what follows
    the run matches the rest of the pattern. *)
Lemma star_class_greedy ic cat w s g k x :
  all_chars (in_category cat) w = true ->
  stops cat s ->
  k s g = Some x ->
  rmatch ic (Star (Class cat)) (w ++ s) g k = Some x.
Proof.
  intros Hw Hs Hk. induction w as [|c w IH]; cbn [append all_chars] in *.
  - rewrite rmatch_star_class. destruct s as [|c s]; [assumption |].
    simpl in Hs. now rewrite Hs.
  - apply andb_true_iff in Hw as [Hc Hw].
    rewrite rmatch_star_class, Hc, (IH Hw). reflexivity.
Qed.

Lemma plus_class_greedy ic cat w s g k x :
  run_of cat w ->
  stops cat s ->
  k s g = Some x ->
  rmatch ic (Plus (Class cat)) (w ++ s) g k = Some x.
Proof.
  intros [Hne Hw] Hs Hk. destruct w as [|c w]; [discriminate |].
  simpl in Hw. apply andb_true_iff in Hw as [Hc Hw].
  rewrite rmatch_plus_class. cbn [append]. rewrite Hc.
  now apply star_class_greedy.
Qed.

Lemma star_class_inv ic cat s g k x :
  rmatch ic (Star (Class cat)) s g k = Some x ->
  exists w s',
    s = w ++ s' /\ all_chars (in_category cat) w = true /\ k s' g = Some x.
Proof.
  induction s as [|c s IH]; rewrite rmatch_star_class; intros H.
  - now exists "", "".
  - destruct (in_category cat c) eqn:Hc.
    + destruct (rmatch ic (Star (Class cat)) s g k) as [y |] eqn:E.
      * injection H as <-.
        destruct (IH eq_refl) as (w & s' & -> & Hw & Hk).
        exists (String c w), s'. simpl. now rewrite Hc, Hw.
      * now exists "", (String c s).
    + now exists "", (String c s).
Qed.

Lemma plus_class_inv ic cat s g k x :
  rmatch ic (Plus (Class cat)) s g k = Some x ->
  exists w s', s = w ++ s' /\ run_of cat w /\ k s' g = Some x.
Proof.
  rewrite rmatch_plus_class. destruct s as [|c s]; [discriminate |].
  destruct (in_category cat c) eqn:Hc; [| discriminate].
  intros H. apply star_class_inv in H as (w & s' & -> & Hw & Hk).
  exists (String c w), s'. repeat split; simpl; auto.
  now rewrite Hc, Hw.
Qed.

Lemma literal_match ic p t s g k :
  same_text ic p t = true ->
  rmatch ic (literal p) (t ++ s) g k = k s g.
Proof.
  revert t. induction p as [|a p IH]; intros [|b t] H;
    cbn [same_text] in H; try discriminate.
  - reflexivity.
  - apply andb_true_iff in H as [Hc Ht].
    cbn [literal]. rewrite rmatch_seq, rmatch_chr. cbn [append].
    rewrite Hc. now apply IH.
Qed.

Lemma literal_inv ic p s g k x :
  rmatch ic (literal p) s g k = Some x ->
  exists t s', s = t ++ s' /\ same_text ic p t = true /\ k s' g = Some x.
Proof.
  revert s. induction p as [|a p IH]; intros s H; cbn [literal] in H.
  - now exists "", s.
  - rewrite rmatch_seq, rmatch_chr in H.
    destruct s as [|c s]; [discriminate |].
    destruct (chr_matches ic a c) eqn:Hc; [| discriminate].
    apply IH in H as (t & s' & -> & Ht & Hk).
    exists (String c t), s'. cbn [same_text]. now rewrite Hc, Ht.
Qed.

Lemma take_append (a b : string) :
  take (String.length (a ++ b) - String.length b) (a ++ b) = a.
Proof.
  rewrite length_append, Nat.add_sub.
  induction a as [|c a IH]; simpl.
  - now destruct b.
  - now rewrite IH.
Qed.

Lemma all_chars_append (p : ascii -> bool) (a b : string) :
  all_chars p (a ++ b) = all_chars p a && all_chars p b.
Proof.
  induction a as [|c a IH]; simpl; [reflexivity |].
  now rewrite IH, andb_assoc.
Qed.

(* ------------------------------------------------------------------ *)
(** ** What the score pattern matches *)

Lemma score_pattern_pieces :
  score_pattern = literal "Score:" >> SPACES >> Group 1 NUMBER >> TAIL.
Proof. reflexivity. Qed.

Lemma digits_run (d : string) : digits d <-> run_of CATEGORY_DIGIT d.
Proof.
  unfold digits, is_digits, run_of. rewrite andb_true_iff. reflexivity.
Qed.

Lemma number_match (N s : string) g k x :
  number N -> stops_number s -> k s g = Some x ->
  rmatch true NUMBER (N ++ s) g k = Some x.
Proof.
  intros HN Hs Hk. unfold NUMBER. rewrite rmatch_seq.
  assert (Hskip : rmatch true (Opt (Chr "." >> Plus (Class CATEGORY_DIGIT)))
                    s g k = Some x).
  { rewrite rmatch_opt, rmatch_seq, rmatch_chr.
    destruct s as [|c s]; [assumption |].
    destruct Hs as [_ Hp]. now rewrite Hp. }
  destruct HN as [Hd | (i & f & -> & Hi & Hf)].
  - apply plus_class_greedy; [now apply digits_run | | assumption].
    destruct s as [|c s]; [exact I | apply Hs].
  - rewrite append_assoc. cbn [append].
    apply plus_class_greedy; [now apply digits_run | reflexivity |].
    rewrite rmatch_opt, rmatch_seq, rmatch_chr.
    change (chr_matches true "." ".") with true. cbv iota.
    rewrite (plus_class_greedy true CATEGORY_DIGIT f s g k x);
      [reflexivity | now apply digits_run | | assumption].
    destruct s as [|c s]; [exact I | apply Hs].
Qed.

Lemma point_only (c : ascii) : chr_matches true "." c = true -> c = "."%char.
Proof. each_char c. Qed.

Lemma number_inv (s : string) g k x :
  rmatch true NUMBER s g k = Some x ->
  exists N s', s = N ++ s' /\ number N /\ k s' g = Some x.
Proof.
  unfold NUMBER. rewrite rmatch_seq. intros H.
  apply plus_class_inv in H as (i & s1 & -> & Hi & H).
  apply digits_run in Hi.
  rewrite rmatch_opt in H.
  destruct (rmatch true (Chr "." >> Plus (Class CATEGORY_DIGIT)) s1 g k)
    as [y |] eqn:E.
  - injection H as <-. rewrite rmatch_seq, rmatch_chr in E.
    destruct s1 as [|c s1]; [discriminate |].
    destruct (chr_matches true "." c) eqn:Hc; [| discriminate].
    apply point_only in Hc. subst c.
    apply plus_class_inv in E as (f & s2 & -> & Hf & Hk).
    apply digits_run in Hf.
    exists (i ++ "." ++ f), s2. split; [| split]; [| | assumption].
    + now rewrite !append_assoc.
    + right. now exists i, f.
  - exists i, s1. split; [reflexivity | split; [now left | assumption]].
Qed.

Lemma lowercase_cons_inv (t : string) (c : ascii) (p : string) :
  lowercase t = String c p ->
  exists c1 t', t = String c1 t' /\ lower c1 = c /\ lowercase t' = p.
Proof.
  destruct t as [|c1 t']; simpl; [discriminate |].
  intros H. injection H as H1 H2. now exists c1, t'.
Qed.

Lemma ten_only (t : string) : same_text true "10" t = true -> t = "10".
Proof.
  intros H. apply same_text_lowercase in H. symmetry in H.
  apply lowercase_cons_inv in H as (c1 & t1 & -> & H1 & H).
  apply lowercase_cons_inv in H as (c2 & t2 & -> & H2 & H).
  destruct t2; [| discriminate].
  apply one_only in H1. apply zero_only in H2. now subst.
Qed.

Lemma word_o_head (o p s : string) :
  lowercase o = String "o" p ->
  stops CATEGORY_SPACE (o ++ s)
  /\ stops_number (o ++ s)
  /\ forall g k, rmatch true (Chr "/") (o ++ s) g k = None.
Proof.
  intros H. apply lowercase_cons_inv in H as (c1 & o1 & -> & Hc & _).
  destruct (letter_o_facts c1 Hc) as (H1 & H2 & H3 & H4).
  cbn [append stops stops_number in_category]. repeat split; auto.
  intros g k. rewrite rmatch_chr. now rewrite H4.
Qed.

Lemma blank_append (a b : string) :
  blank a -> blank b ->
  all_chars (in_category CATEGORY_SPACE) (a ++ b) = true.
Proof.
  unfold blank. intros Ha Hb. rewrite all_chars_append.
  change (in_category CATEGORY_SPACE) with isspace. now rewrite Ha, Hb.
Qed.

Lemma tail_match_slash (w2 w3 rest : string) g k x :
  blank w2 -> blank w3 -> k rest g = Some x ->
  rmatch true TAIL (w2 ++ "/" ++ w3 ++ "10" ++ rest) g k = Some x.
Proof.
  intros H2 H3 Hk. unfold TAIL, SEPARATOR, SPACES.
  rewrite rmatch_seq. apply star_class_greedy; [exact H2 | reflexivity |].
  cbv beta. rewrite rmatch_seq, rmatch_alt, rmatch_chr. cbn [append].
  change (chr_matches true "/" "/") with true. cbv iota.
  rewrite rmatch_seq.
  rewrite (star_class_greedy true CATEGORY_SPACE w3 ("10" ++ rest) g _ x);
    [reflexivity | exact H3 | reflexivity |].
  now rewrite literal_match by reflexivity.
Qed.

Lemma tail_match_words (w2 a o b f c w3 rest : string) g k x :
  blank w2 -> blank a -> lowercase o = "out" -> blank b ->
  lowercase f = "of" -> blank c -> blank w3 -> k rest g = Some x ->
  rmatch true TAIL (w2 ++ (a ++ o ++ b ++ f ++ c) ++ w3 ++ "10" ++ rest) g k
  = Some x.
Proof.
  intros H2 Ha Ho Hb Hf Hc H3 Hk.
  replace (w2 ++ (a ++ o ++ b ++ f ++ c) ++ w3 ++ "10" ++ rest)
    with ((w2 ++ a) ++ o ++ b ++ f ++ (c ++ w3) ++ "10" ++ rest)
    by (now rewrite !append_assoc).
  pose proof (fun s => word_o_head o _ s Ho) as Hoh.
  pose proof (fun s => word_o_head f _ s Hf) as Hfh.
  assert (So : same_text true "out" o = true)
    by (now apply same_text_lowercase).
  assert (Sf : same_text true "of" f = true)
    by (now apply same_text_lowercase).
  unfold TAIL, SEPARATOR, SPACES.
  rewrite rmatch_seq. apply star_class_greedy.
  { now apply blank_append. }
  { apply Hoh. }
  cbv beta. rewrite rmatch_seq, rmatch_alt.
  rewrite (proj2 (proj2 (Hoh _))).
  rewrite rmatch_seq.
  apply (star_class_greedy true CATEGORY_SPACE "");
    [reflexivity | apply Hoh |].
  cbv beta. rewrite rmatch_seq, literal_match by exact So.
  rewrite rmatch_seq. apply star_class_greedy; [exact Hb | apply Hfh |].
  cbv beta. rewrite rmatch_seq, literal_match by exact Sf.
  apply star_class_greedy.
  { now apply blank_append. }
  { reflexivity. }
  cbv beta. rewrite rmatch_seq.
  apply (star_class_greedy true CATEGORY_SPACE ""); [reflexivity .. |].
  cbv beta. now rewrite (literal_match true "10" "10" rest) by reflexivity.
Qed.

Lemma tail_match (w2 sep w3 rest : string) g k x :
  blank w2 -> separator sep -> blank w3 -> k rest g = Some x ->
  rmatch true TAIL (w2 ++ sep ++ w3 ++ "10" ++ rest) g k = Some x.
Proof.
  intros H2 [-> | (a & o & b & f & c & -> & Ha & Ho & Hb & Hf & Hc)] H3 Hk.
  - now apply tail_match_slash.
  - now apply tail_match_words.
Qed.

Lemma tail_stops_number (w2 sep s : string) :
  blank w2 -> separator sep -> stops_number (w2 ++ sep ++ s).
Proof.
  intros H2 Hsep.
  assert (Hblank : forall w t, blank w -> stops_number t ->
                               stops_number (w ++ t)).
  { intros [|c w] t Hw Ht; [exact Ht |].
    unfold blank in Hw. simpl in Hw. apply andb_true_iff in Hw as [Hc _].
    split; [now apply space_not_digit | now apply space_not_point]. }
  apply Hblank; [exact H2 |].
  destruct Hsep as [-> | (a & o & b & f & c & -> & Ha & Ho & _)].
  - now split.
  - rewrite append_assoc. apply Hblank; [exact Ha |].
    rewrite append_assoc. now apply (word_o_head o _ _ Ho).
Qed.

Lemma tail_inv (s : string) g k x :
  rmatch true TAIL s g k = Some x ->
  exists w2 sep w3 rest,
    s = w2 ++ sep ++ w3 ++ "10" ++ rest
    /\ blank w2 /\ separator sep /\ blank w3 /\ k rest g = Some x.
Proof.
  unfold TAIL, SEPARATOR, SPACES. rewrite rmatch_seq. intros H.
  apply star_class_inv in H as (w2 & s1 & -> & H2 & H).
  rewrite rmatch_seq, rmatch_alt in H.
  assert (Hend : forall t,
             rmatch true (Star (Class CATEGORY_SPACE) >> literal "10")
               t g k = Some x ->
             exists w3 rest,
               t = w3 ++ "10" ++ rest /\ blank w3 /\ k rest g = Some x).
  { intros t Ht. rewrite rmatch_seq in Ht.
    apply star_class_inv in Ht as (w3 & t1 & -> & H3 & Ht).
    apply literal_inv in Ht as (ten & rest & -> & Hten & Hk).
    apply ten_only in Hten. subst ten. now exists w3, rest. }
  match type of H with
  | match ?m with _ => _ end = _ => destruct m as [y |] eqn:E
  end.
  - injection H as <-. rewrite rmatch_chr in E.
    destruct s1 as [|c s1]; [discriminate |].
    destruct (chr_matches true "/" c) eqn:Hc; [| discriminate].
    apply slash_only in Hc. subst c.
    apply Hend in E as (w3 & rest & -> & H3 & Hk).
    exists w2, "/", w3, rest. repeat split; auto. now left.
  - rewrite rmatch_seq in H.
    apply star_class_inv in H as (a & s2 & -> & Ha & H).
    rewrite rmatch_seq in H.
    apply literal_inv in H as (o & s3 & -> & Ho & H).
    rewrite rmatch_seq in H.
    apply star_class_inv in H as (b & s4 & -> & Hb & H).
    rewrite rmatch_seq in H.
    apply literal_inv in H as (f & s5 & -> & Hf & H).
    apply star_class_inv in H as (c & s6 & -> & Hc & H).
    apply Hend in H as (w3 & rest & -> & H3 & Hk).
    exists w2, (a ++ o ++ b ++ f ++ c), w3, rest.
    split; [now rewrite !append_assoc |].
    repeat split; auto.
    right. exists a, o, b, f, c. repeat split; auto.
    + apply same_text_lowercase in Ho. now rewrite <- Ho.
    + apply same_text_lowercase in Hf. now rewrite <- Hf.
Qed.

Lemma number_head (N : string) :
  number N -> exists c N', N = String c N' /\ isdecimal c = true.
Proof.
  assert (Hd : forall d, digits d ->
                         exists c d', d = String c d' /\ isdecimal c = true).
  { intros [|c d] H; [discriminate |].
    unfold digits, is_digits in H. simpl in H.
    apply andb_true_iff in H as [H _]. now exists c, d. }
  intros [H | (i & f & -> & Hi & _)].
  - now apply Hd.
  - destruct (Hd i Hi) as (c & i' & -> & Hc). now exists c, (i' ++ "." ++ f).
Qed.

(** The pattern matches at the head of every text that begins with a
    score phrase, and group 1 is the number of the phrase. *)
Lemma score_pattern_match (N m rest : string) :
  score_phrase N m ->
  re_match true score_pattern (m ++ rest) = Some [(1, N)].
Proof.
  intros (kw & w1 & w2 & sep & w3 & -> & Hkw & H1 & HN & H2 & Hsep & H3).
  replace ((kw ++ w1 ++ N ++ w2 ++ sep ++ w3 ++ "10") ++ rest)
    with (kw ++ w1 ++ N ++ (w2 ++ sep ++ w3 ++ "10" ++ rest))
    by (now rewrite !append_assoc).
  unfold re_match. rewrite score_pattern_pieces.
  rewrite rmatch_seq, literal_match by (now apply same_text_lowercase).
  unfold SPACES. rewrite rmatch_seq. apply star_class_greedy; [exact H1 | |].
  { destruct (number_head N HN) as (c & N' & -> & Hc).
    now apply digit_not_space. }
  cbv beta. rewrite rmatch_seq, rmatch_group.
  apply number_match; [exact HN | now apply tail_stops_number |].
  rewrite take_append.
  now apply tail_match.
Qed.

(** Conversely a match at the head of a text is a score phrase, and
    group 1 is its number. *)
Lemma score_pattern_inv (s : string) (g : captures) :
  re_match true score_pattern s = Some g ->
  exists N m rest, s = m ++ rest /\ score_phrase N m /\ g = [(1, N)].
Proof.
  unfold re_match. rewrite score_pattern_pieces, rmatch_seq. intros H.
  apply literal_inv in H as (kw & s1 & -> & Hkw & H).
  unfold SPACES in H. rewrite rmatch_seq in H.
  apply star_class_inv in H as (w1 & s2 & -> & H1 & H).
  rewrite rmatch_seq, rmatch_group in H.
  apply number_inv in H as (N & s3 & -> & HN & H).
  rewrite take_append in H.
  apply tail_inv in H as (w2 & sep & w3 & rest & -> & H2 & Hsep & H3 & Hk).
  injection Hk as <-.
  exists N, (kw ++ w1 ++ N ++ w2 ++ sep ++ w3 ++ "10"), rest.
  split; [now rewrite !append_assoc | split; [| reflexivity]].
  exists kw, w1, w2, sep, w3. repeat split; auto.
  apply same_text_lowercase in Hkw. now rewrite <- Hkw.
Qed.

(* ------------------------------------------------------------------ *)
(** ** The search for the first match *)

Lemma re_search_unfold ic r s :
  re_search ic r s
  = match re_match ic r s with
    | Some g => Some g
    | None =>
        match s with
        | EmptyString => None
        | String _ s' => re_search ic r s'
        end
    end.
Proof. now destruct s. Qed.

(** The search returns the match at the first position that has one. *)
Lemma re_search_first ic r (pre s : string) (g : captures) :
  (forall a b, pre = a ++ b -> b <> "" -> re_match ic r (b ++ s) = None) ->
  re_match ic r s = Some g ->
  re_search ic r (pre ++ s) = Some g.
Proof.
  induction pre as [|c pre IH]; intros Hnone Hs; rewrite re_search_unfold.
  - cbn [append]. now rewrite Hs.
  - rewrite (Hnone "" (String c pre)) by (reflexivity || discriminate).
    cbn [append]. apply IH; [| exact Hs].
    intros a b -> Hb. apply (Hnone (String c a) b); [reflexivity | exact Hb].
Qed.

Lemma re_search_inv ic r (s : string) (g : captures) :
  re_search ic r s = Some g ->
  exists a b, s = a ++ b /\ re_match ic r b = Some g.
Proof.
  induction s as [|c s IH]; rewrite re_search_unfold; intros H.
  - destruct (re_match ic r "") eqn:E; [| discriminate].
    injection H as <-. now exists "", "".
  - destruct (re_match ic r (String c s)) eqn:E.
    + injection H as <-. now exists "", (String c s).
    + destruct (IH H) as (a & b & -> & Hb). now exists (String c a), b.
Qed.

Lemma re_search_none ic r (s : string) :
  (forall a b, s = a ++ b -> re_match ic r b = None) ->
  re_search ic r s = None.
Proof.
  intros H. destruct (re_search ic r s) as [g |] eqn:E; [| reflexivity].
  apply re_search_inv in E as (a & b & -> & Hb).
  now rewrite (H a b eq_refl) in Hb.
Qed.

(* ------------------------------------------------------------------ *)
(** ** [float] reads every number *)

Lemma digit_is_no_point (c : ascii) :
  isdecimal c = true -> Ascii.eqb c "." = false.
Proof. each_char c. Qed.

Lemma split_point_digits (i : string) :
  all_chars isdecimal i = true -> split_point i = (i, None).
Proof.
  induction i as [|c i IH]; simpl; [reflexivity |]. intros H.
  apply andb_true_iff in H as [Hc Hi].
  now rewrite (digit_is_no_point c Hc), (IH Hi).
Qed.

Lemma split_point_pointed (i f : string) :
  all_chars isdecimal i = true -> split_point (i ++ "." ++ f) = (i, Some f).
Proof.
  change ("." ++ f) with (String "." f).
  induction i as [|c i IH]; simpl; [reflexivity |]. intros H.
  apply andb_true_iff in H as [Hc Hi].
  now rewrite (digit_is_no_point c Hc), (IH Hi).
Qed.

(** The conversion on known values: 0.1 and 0.3 round as binary64 does,
    2^53 + 1 is a tie and goes to the even neighbour, a number beyond
    the range is infinite, and 7, 7.0 and 007 are the literal [7.0]. *)
Example float_of_str_samples :
  float_of_str "0.1" = Returns (S754_finite false 7205759403792794 (-56))
  /\ float_of_str "0.3" = Returns (S754_finite false 5404319552844595 (-54))
  /\ float_of_str "9007199254740993"
     = Returns (S754_finite false 4503599627370496 1)
  /\ float_of_str "7" = Returns float_7_0
  /\ float_of_str "7.0" = Returns float_7_0
  /\ float_of_str "007" = Returns float_7_0
  /\ valid_binary 53 1024 float_7_0 = true.
Proof. repeat split; vm_compute; reflexivity. Qed.

Lemma float_of_str_number (N : string) :
  number N -> exists x, float_of_str N = Returns x.
Proof.
  unfold float_of_str.
  intros [Hd | (i & f & -> & Hi & Hf)].
  - pose proof Hd as Hd'. unfold digits, is_digits in Hd'.
    apply andb_true_iff in Hd' as [_ Ha].
    rewrite (split_point_digits N Ha). unfold digits in Hd. rewrite Hd. eauto.
  - pose proof Hi as Hi'. unfold digits, is_digits in Hi'.
    apply andb_true_iff in Hi' as [_ Ha].
    rewrite (split_point_pointed i f Ha).
    unfold digits in Hi, Hf. rewrite Hi, Hf. simpl. eauto.
Qed.

(* ------------------------------------------------------------------ *)
(** ** The score extractor *)

Lemma match_is_score_at (a b : string) (g : captures) :
  re_match true score_pattern b = Some g ->
  exists N, score_at N a (a ++ b) /\ g = [(1, N)].
Proof.
  intros H. apply score_pattern_inv in H as (N & m & rest & -> & Hm & ->).
  exists N. split; [| reflexivity]. now exists m, rest.
Qed.

Lemma score_at_found (N pre feedback : string) :
  score_at N pre feedback ->
  exists g, re_search true score_pattern feedback = Some g.
Proof.
  intros (m & post & -> & Hm).
  destruct (re_search true score_pattern (pre ++ m ++ post)) as [g |] eqn:E;
    [now exists g |].
  assert (H : re_match true score_pattern (m ++ post) = None).
  { destruct (re_match true score_pattern (m ++ post)) as [g |] eqn:E';
      [| reflexivity].
    revert E. clear -E'. induction pre as [|c pre IH];
      rewrite re_search_unfold; cbn [append].
    - now rewrite E'.
    - destruct (re_match true score_pattern (String c (pre ++ m ++ post)));
        [discriminate | exact IH]. }
  now rewrite (score_pattern_match N m post Hm) in H.
Qed.

Lemma extract_score_returns (feedback : string) :
  exists x, extract_score feedback = Returns x.
Proof.
  unfold extract_score.
  destruct (re_search true score_pattern feedback) as [g |] eqn:E;
    [| now exists float_7_0].
  apply re_search_inv in E as (a & b & -> & Hb).
  apply (match_is_score_at a) in Hb as (N & (m & post & _ & Hm) & ->).
  cbn [group Nat.eqb].
  destruct Hm as (_ & _ & _ & _ & _ & _ & _ & _ & HN & _).
  now apply float_of_str_number.
Qed.

(** C4, as the claim states it, fails: a feedback that holds two score
    phrases holds the second one, with the number 5, and the extractor
    returns the number of the first, 3.0, which is not 5.0. *)
Lemma extract_score_second_phrase_ignored :
  score_at "5" "Score: 3/10 (was " "Score: 3/10 (was Score: 5/10)"
  /\ float_of_str "5" = Returns (S754_finite false 5629499534213120 (-50))
  /\ extract_score "Score: 3/10 (was Score: 5/10)"
     = Returns (S754_finite false 6755399441055744 (-51)).
Proof.
  split; [| split]; [| reflexivity | reflexivity].
  exists "Score: 5/10", ")". split; [reflexivity |].
  exists "Score:", " ", "", "/", "". repeat split.
  - now left.
  - now left.
Qed.

(** The extractor reads the number of the leftmost score phrase. *)
Lemma extract_score_leftmost (feedback N pre : string) :
  score_at N pre feedback ->
  (forall N' pre', score_at N' pre' feedback ->
                   String.length pre <= String.length pre') ->
  extract_score feedback = float_of_str N
  /\ exists x, float_of_str N = Returns x.
Proof.
  intros Hat Hfirst.
  pose proof Hat as (m & post & -> & Hm).
  assert (Hs : re_search true score_pattern (pre ++ m ++ post)
               = Some [(1, N)]).
  { apply re_search_first; [| now apply score_pattern_match].
    intros a b -> Hb.
    destruct (re_match true score_pattern (b ++ m ++ post)) as [g |] eqn:E;
      [| reflexivity].
    apply (match_is_score_at a) in E as (N' & Hat' & _).
    rewrite <- append_assoc in Hat'.
    apply Hfirst in Hat'. rewrite length_append in Hat'.
    destruct b; [now destruct Hb | simpl in Hat'; lia]. }
  unfold extract_score. rewrite Hs. cbn [group Nat.eqb].
  split; [reflexivity |].
  apply float_of_str_number.
  now destruct Hm as (_ & _ & _ & _ & _ & _ & _ & _ & HN & _).
Qed.

(** Without a score phrase the extractor falls back on 7.0. *)
Lemma extract_score_no_phrase (feedback : string) :
  (forall N pre, ~ score_at N pre feedback) ->
  extract_score feedback = Returns float_7_0.
Proof.
  intros Hnone. unfold extract_score.
  rewrite re_search_none; [reflexivity |].
  intros a b -> .
  destruct (re_match true score_pattern b) as [g |] eqn:E; [| reflexivity].
  apply (match_is_score_at a) in E as (N & Hat & _).
  now apply Hnone in Hat.
Qed.

(** C4, amended.  When the feedback holds a score phrase ("Score:", a
    number [N], then "/10" or "out of 10", in any case and with optional
    blanks), the extractor returns, as a float, the number of the
    leftmost such phrase; when the feedback holds no such phrase it
    returns 7.0. *)
Theorem extract_score_first_phrase (feedback : string) :
  (forall N pre,
      score_at N pre feedback ->
      (forall N' pre', score_at N' pre' feedback ->
                       String.length pre <= String.length pre') ->
      extract_score feedback = float_of_str N
      /\ exists x, float_of_str N = Returns x)
  /\ ((forall N pre, ~ score_at N pre feedback) ->
      extract_score feedback = Returns float_7_0).
Proof.
  split.
  - intros N pre. apply extract_score_leftmost.
  - apply extract_score_no_phrase.
Qed.

Lemma extract_score_first_phrase_witness :
  extract_score ("SCORE: 8.5 out of 10" ++ nl ++ "Clear and concrete.")
  = Returns (S754_finite false 4785074604081152 (-49))
  /\ extract_score "Well argued, no marks given."
     = Returns float_7_0.
Proof.
  split.
  - destruct (proj1 (extract_score_first_phrase
                       ("SCORE: 8.5 out of 10" ++ nl ++ "Clear and concrete."))
                "8.5" "") as [H _].
    + exists "SCORE: 8.5 out of 10", (nl ++ "Clear and concrete.").
      split; [reflexivity |].
      exists "SCORE:", " ", "", " out of ", "". repeat split.
      * right. exists "8", "5". now repeat split.
      * right. exists " ", "out", " ", "of", " ". now repeat split.
    + intros. simpl. lia.
    + rewrite H. reflexivity.
  - apply (proj2 (extract_score_first_phrase "Well argued, no marks given.")).
    intros N pre H. apply score_at_found in H as [g Hg].
    vm_compute in Hg. discriminate.
Defined.

(* ------------------------------------------------------------------ *)
(** ** Whitespace-only answers *)

Lemma all_chars_rev_onto (p : ascii -> bool) (s acc : string) :
  all_chars p (rev_onto s acc) = all_chars p s && all_chars p acc.
Proof.
  revert acc. induction s as [|c s IH]; intros acc; simpl; [reflexivity |].
  rewrite IH. simpl. destruct (p c), (all_chars p s); reflexivity.
Qed.

Lemma rev_onto_empty (s acc : string) :
  rev_onto s acc = "" -> s = "" /\ acc = "".
Proof.
  revert acc. induction s as [|c s IH]; intros acc H; [now split |].
  simpl in H. apply IH in H as [_ H]. discriminate.
Qed.

Lemma lstrip_blank (s : string) :
  lstrip s = "" <-> all_chars isspace s = true.
Proof.
  induction s as [|c s IH]; simpl; [tauto |].
  destruct (isspace c); simpl; [exact IH | split; discriminate].
Qed.

(** [s.strip()] is empty exactly when [s] is empty or holds whitespace
    only. *)
Lemma strip_blank (s : string) :
  strip s = "" <-> all_chars isspace s = true.
Proof.
  unfold strip, reverse. split.
  - intros H. apply rev_onto_empty in H as [H _]. apply lstrip_blank in H.
    rewrite all_chars_rev_onto, andb_true_r in H.
    destruct (lstrip s) as [|c t] eqn:E; [now apply lstrip_blank |].
    exfalso. simpl in H. apply andb_true_iff in H as [Hc _].
    clear -E Hc. induction s as [|d s IH]; simpl in E; [discriminate |].
    destruct (isspace d) eqn:Hd; [now apply IH |].
    injection E as -> _. congruence.
  - intros H. apply lstrip_blank in H. now rewrite H.
Qed.

(* ------------------------------------------------------------------ *)
(** ** One interaction *)

Lemma st_button_no_click (w : widgets) (b : button) :
  st_button (no_click w) b = button_eqb NoButton b.
Proof. reflexivity. Qed.

(** A run that [st.rerun()] starts presses no button: it only fills the
    missing keys and ends. *)
Lemma script_no_click (api : Genai) (w : widgets) (ss : option session) :
  script api (no_click w) ss = Finished (initialize ss).
Proof.
  unfold script, main_block, submit_handler, skip_handler, results_block.
  rewrite !st_button_no_click. cbn [button_eqb orb].
  destruct (question_truthy (initialize ss)) eqn:Hq.
  - unfold question_truthy in Hq.
    destruct (question (initialize ss)); [| discriminate].
    now destruct (results_shown (no_click w) (initialize ss)).
  - now destruct (results_shown (no_click w) (initialize ss)).
Qed.

(** The runs of an interaction settle after one rerun at most: any fuel
    from 2 on gives the state [interact] names. *)
Lemma run_settles (fuel : nat) (api : Genai) (w : widgets) (st : session) :
  run (S (S fuel)) api w (Some st) = Some (settle (script api w (Some st))).
Proof.
  cbn [run]. destruct (script api w (Some st)); try reflexivity.
  now rewrite script_no_click.
Qed.

Lemma interact_settle (api : Genai) (w : widgets) (st : session) :
  interact api w st = settle (script api w (Some st)).
Proof. unfold interact. now rewrite run_settles. Qed.

Lemma run_interact (fuel : nat) (api : Genai) (w : widgets) (st : session) :
  run (S (S fuel)) api w (Some st) = Some (interact api w st).
Proof. now rewrite run_settles, interact_settle. Qed.

Lemma truthy_append (a b : string) : truthy a = true -> truthy (a ++ b) = true.
Proof. now destruct a. Qed.

(** Every generated question is a non-empty text. *)
Lemma generate_question_truthy
  (asked : nat) (role : Role) (domain : string) (mode : Mode) :
  truthy (generate_question asked role domain mode) = true.
Proof.
  assert (Hq : truthy (selected_template asked domain mode) = true).
  { unfold selected_template. rewrite question_templates_length.
    pose proof (Nat.mod_upper_bound asked 5 ltac:(lia)) as Hi.
    destruct (asked mod 5) as [|[|[|[|[|i]]]]]; try lia;
      destruct mode; simpl; try reflexivity;
      destruct (truthy domain); reflexivity. }
  unfold generate_question.
  destruct (truthy domain && negb (contains "domain" _)); [| exact Hq].
  now apply truthy_append.
Qed.

Lemma settle_next_or_finish (w : widgets) (st : session) (added : list item)
  (q : option string) :
  settle (next_or_finish w {| question := q; asked := asked st + 1;
                              score := (score st ++ added)%list |})
  = advanced w st added.
Proof.
  unfold next_or_finish, advanced. cbn [asked score].
  now destruct (asked st + 1 <? num_questions w).
Qed.

Lemma session_eta (st : session) :
  {| question := question st; asked := asked st; score := score st |} = st.
Proof. now destruct st. Qed.

(** What follows a handler that has called [st.rerun()] is not run. *)
Lemma next_or_finish_reruns (f : session -> run_end) (w : widgets)
  (st : session) :
  match next_or_finish w st with
  | Finished st' => f st'
  | r => r
  end = next_or_finish w st.
Proof. unfold next_or_finish. now destruct (asked st <? num_questions w). Qed.

Lemma interact_start (api : Genai) (w : widgets) (st : session) :
  question st = None -> clicked w = StartPractice ->
  interact api w st = started w.
Proof.
  intros Hq Hc. rewrite interact_settle.
  unfold script, main_block, submit_handler, skip_handler, results_block,
    results_shown, st_button.
  rewrite Hc. cbn [initialize button_eqb orb]. rewrite Hq.
  cbn [asked score andb]. now rewrite andb_false_r.
Qed.

Lemma interact_submit (api : Genai) (w : widgets) (st : session)
  (q feedback : string) (sc : float) :
  question st = Some q -> truthy q = true ->
  clicked w = SubmitButton ->
  truthy (strip (user_answer w)) = true ->
  evaluate_answer api (user_answer w) q (mode w) = Returns feedback ->
  extract_score feedback = Returns sc ->
  interact api w st
  = advanced w st [entry_of q (user_answer w) feedback sc].
Proof.
  intros Hq Ht Hc Ha He Hx. rewrite interact_settle.
  unfold script, main_block, submit_handler, skip_handler, st_button,
      question_truthy.
  rewrite Hc. cbn [initialize button_eqb orb]. rewrite Hq, Ht, Ha, He, Hx.
  cbn [negb]. rewrite !next_or_finish_reruns.
  apply settle_next_or_finish.
Qed.

Lemma interact_submit_blank (api : Genai) (w : widgets) (st : session) :
  clicked w = SubmitButton ->
  truthy (strip (user_answer w)) = false ->
  interact api w st = st.
Proof.
  intros Hc Ha. rewrite interact_settle.
  unfold script, main_block, submit_handler, skip_handler, results_block,
      st_button, question_truthy.
  rewrite Hc. cbn [initialize button_eqb orb].
  destruct (question st) as [q |] eqn:Hq.
  - destruct (truthy q).
    + rewrite Ha. cbn [negb]. now destruct (results_shown w st).
    + now destruct (results_shown w st).
  - now destruct (results_shown w st).
Qed.

Lemma interact_skip (api : Genai) (w : widgets) (st : session) (q : string) :
  question st = Some q -> truthy q = true ->
  clicked w = SkipButton ->
  interact api w st = advanced w st [].
Proof.
  intros Hq Ht Hc. rewrite interact_settle.
  unfold script, main_block, submit_handler, skip_handler, st_button,
      question_truthy.
  rewrite Hc. cbn [initialize button_eqb orb]. rewrite Hq, Ht.
  rewrite !next_or_finish_reruns.
  rewrite <- (settle_next_or_finish w st [] (Some q)).
  now rewrite app_nil_r.
Qed.

(** Every interaction leaves the state as it was, or fresh, or at the
    first question of a new run, or one question further. *)
Lemma interact_cases (api : Genai) (w : widgets) (st : session) :
  interact api w st = st
  \/ interact api w st = fresh_session
  \/ (question st = None /\ interact api w st = started w)
  \/ (question_truthy st = true
      /\ exists added, length added <= 1
                       /\ interact api w st = advanced w st added).
Proof.
  destruct (clicked w) eqn:Hc.
  - left. rewrite interact_settle.
    unfold script, main_block, submit_handler, skip_handler, results_block,
      st_button, question_truthy.
    rewrite Hc. cbn [initialize button_eqb orb].
    destruct (question st) as [q |]; [destruct (truthy q) |];
      now destruct (results_shown w st).
  - right. left. rewrite interact_settle. unfold script, st_button.
    now rewrite Hc.
  - destruct (question st) as [q |] eqn:Hq.
    + left. rewrite interact_settle.
      unfold script, main_block, submit_handler, skip_handler, results_block,
      st_button.
      rewrite Hc. cbn [initialize button_eqb orb]. rewrite Hq.
      now destruct (results_shown w st).
    + right. right. left. split; [reflexivity |]. now apply interact_start.
  - destruct (truthy (strip (user_answer w))) eqn:Ha;
      [| left; now apply interact_submit_blank].
    destruct (question st) as [q |] eqn:Hq.
    + destruct (truthy q) eqn:Ht.
      * destruct (evaluate_answer api (user_answer w) q (mode w))
          as [feedback | e] eqn:He.
        -- destruct (extract_score feedback) as [sc | e] eqn:Hx.
           ++ right. right. right. split.
              { unfold question_truthy. now rewrite Hq. }
              eexists. split; [| now apply (interact_submit api w st q
                                              feedback sc)].
              simpl. lia.
           ++ left. rewrite interact_settle.
              unfold script, main_block, submit_handler, skip_handler, st_button,
      question_truthy.
              rewrite Hc. cbn [initialize button_eqb orb].
              now rewrite Hq, Ht, Ha, He, Hx.
        -- left. rewrite interact_settle.
           unfold script, main_block, submit_handler, skip_handler, st_button,
      question_truthy.
           rewrite Hc. cbn [initialize button_eqb orb].
           now rewrite Hq, Ht, Ha, He.
      * left. rewrite interact_settle.
        unfold script, main_block, submit_handler, skip_handler, results_block,
      st_button, question_truthy.
        rewrite Hc. cbn [initialize button_eqb orb]. rewrite Hq, Ht.
        now destruct (results_shown w st).
    + left. rewrite interact_settle.
      unfold script, main_block, submit_handler, skip_handler, results_block,
      st_button, question_truthy.
      rewrite Hc. cbn [initialize button_eqb orb]. rewrite Hq.
      now destruct (results_shown w st).
  - destruct (question st) as [q |] eqn:Hq.
    + destruct (truthy q) eqn:Ht.
      * right. right. right. split.
        { unfold question_truthy. now rewrite Hq. }
        exists []. split; [simpl; lia | now apply (interact_skip api w st q)].
      * left. rewrite interact_settle.
        unfold script, main_block, submit_handler, skip_handler, results_block,
      st_button, question_truthy.
        rewrite Hc. cbn [initialize button_eqb orb]. rewrite Hq, Ht.
        now destruct (results_shown w st).
    + left. rewrite interact_settle.
      unfold script, main_block, submit_handler, skip_handler, results_block,
      st_button, question_truthy.
      rewrite Hc. cbn [initialize button_eqb orb]. rewrite Hq.
      now destruct (results_shown w st).
  - rewrite interact_settle.
    unfold script, main_block, submit_handler, skip_handler, results_block,
      st_button, question_truthy.
    rewrite Hc. cbn [initialize button_eqb orb].
    destruct (question st) as [q |]; [destruct (truthy q) |];
      destruct (results_shown w st); cbn [settle initialize]; auto.
Qed.

(* ------------------------------------------------------------------ *)
(** ** The Submit handler *)

(** C1, as the claim states it, fails: an answer of three spaces is a
    non-empty answer, a question is pending, and Submit leaves the
    session as it was: nothing is appended and [asked] stays 0. *)
Lemma submit_of_spaces_is_ignored :
  let w := sample_widgets 2 "   " SubmitButton in
  let st := started w in
  user_answer w <> ""
  /\ question st = Some "Tell me about yourself."
  /\ interact (canned_api "Score: 9/10") w st = st.
Proof. split; [discriminate | split; reflexivity]. Qed.

(** C1, amended.  On Submit with an answer that is non-empty after
    [strip()], while a question [q] is pending, the controller evaluates
    the answer, extracts a score from the feedback, appends exactly one
    entry (question, answer, feedback, score) to the results and adds
    one to [asked]; then, if [asked] is below [num_questions], the next
    question is generated and becomes the current one, and otherwise
    the current question is cleared. *)
Theorem submit_records_answer
  (api : Genai) (w : widgets) (st : session) (q : string) :
  ASKING st -> question st = Some q ->
  clicked w = SubmitButton ->
  truthy (strip (user_answer w)) = true ->
  exists feedback sc,
    evaluate_answer api (user_answer w) q (mode w) = Returns feedback
    /\ extract_score feedback = Returns sc
    /\ score (interact api w st)
       = (score st ++ [entry_of q (user_answer w) feedback sc])%list
    /\ asked (interact api w st) = asked st + 1
    /\ question (interact api w st)
       = if asked st + 1 <? num_questions w
         then Some (generate_question (asked st + 1) (role w) (domain w)
                      (mode w))
         else None.
Proof.
  intros Hask Hq Hc Ha.
  assert (Ht : truthy q = true).
  { unfold ASKING, question_truthy in Hask. now rewrite Hq in Hask. }
  destruct (evaluate_answer_returns api (user_answer w) q (mode w))
    as [feedback He].
  destruct (extract_score_returns feedback) as [sc Hx].
  exists feedback, sc.
  rewrite (interact_submit api w st q feedback sc Hq Ht Hc Ha He Hx).
  now repeat split.
Qed.

Lemma submit_records_answer_witness :
  let w := sample_widgets 2 "I am diligent." SubmitButton in
  exists feedback sc,
    evaluate_answer (canned_api "Score: 9/10") (user_answer w)
      "Tell me about yourself." (mode w) = Returns feedback
    /\ extract_score feedback = Returns sc
    /\ score (interact (canned_api "Score: 9/10") w (started w))
       = ([] ++ [entry_of "Tell me about yourself." (user_answer w)
                   feedback sc])%list
    /\ asked (interact (canned_api "Score: 9/10") w (started w)) = 0 + 1
    /\ question (interact (canned_api "Score: 9/10") w (started w))
       = if 0 + 1 <? num_questions w
         then Some (generate_question (0 + 1) (role w) (domain w) (mode w))
         else None.
Proof.
  exact (submit_records_answer (canned_api "Score: 9/10")
           (sample_widgets 2 "I am diligent." SubmitButton)
           (started (sample_widgets 2 "I am diligent." SubmitButton))
           "Tell me about yourself."
           eq_refl eq_refl eq_refl eq_refl).
Defined.

(** C6.  Submit with an answer that is empty or holds whitespace only,
    while a question is pending, leaves the whole session state as it
    was: [asked], the results and the current question keep their
    values, no entry is created, and the question is still pending. *)
Theorem blank_submit_changes_nothing
  (api : Genai) (w : widgets) (st : session) :
  ASKING st ->
  clicked w = SubmitButton ->
  all_chars isspace (user_answer w) = true ->
  interact api w st = st
  /\ asked (interact api w st) = asked st
  /\ score (interact api w st) = score st
  /\ question (interact api w st) = question st
  /\ ASKING (interact api w st).
Proof.
  intros Hask Hc Hb.
  assert (H : interact api w st = st).
  { apply interact_submit_blank; [exact Hc |].
    apply strip_blank in Hb. now rewrite Hb. }
  rewrite H. now repeat split.
Qed.

Lemma blank_submit_changes_nothing_witness :
  let w := sample_widgets 3 (" " ++ nl ++ "  ") SubmitButton in
  interact (canned_api "Score: 9/10") w (started w) = started w
  /\ asked (interact (canned_api "Score: 9/10") w (started w)) = 0
  /\ score (interact (canned_api "Score: 9/10") w (started w)) = []
  /\ question (interact (canned_api "Score: 9/10") w (started w))
     = Some "Tell me about yourself."
  /\ ASKING (interact (canned_api "Score: 9/10") w (started w)).
Proof.
  exact (blank_submit_changes_nothing (canned_api "Score: 9/10")
           (sample_widgets 3 (" " ++ nl ++ "  ") SubmitButton)
           (started (sample_widgets 3 (" " ++ nl ++ "  ") SubmitButton))
           eq_refl eq_refl eq_refl).
Defined.

(* ------------------------------------------------------------------ *)
(** ** A run from its start to its end *)

Lemma button_eqb_eq (a b : button) : button_eqb a b = true <-> a = b.
Proof. destruct a, b; simpl; split; congruence. Qed.

Lemma action_step (n : nat) (api : Genai) (w : widgets) (st : session) :
  action n (api, w) -> question_truthy st = true ->
  let st' := interact api w st in
  asked st' = asked st + 1
  /\ length (score st')
     = length (score st) + (if is_submit (api, w) then 1 else 0)
  /\ question st'
     = if asked st + 1 <? n
       then Some (generate_question (asked st + 1) (role w) (domain w)
                    (mode w))
       else None.
Proof.
  intros [Hn Hact] Hask. cbn [snd] in Hn. cbv zeta.
  unfold question_truthy in Hask.
  destruct (question st) as [q |] eqn:Hq; [| discriminate].
  unfold is_submit, is_skip in *. cbn [snd] in *.
  destruct Hact as [Hs | Hs].
  - rewrite Hs. apply andb_true_iff in Hs as [Hc Ha].
    apply button_eqb_eq in Hc.
    destruct (evaluate_answer_returns api (user_answer w) q (mode w))
      as [feedback He].
    destruct (extract_score_returns feedback) as [sc Hx].
    rewrite (interact_submit api w st q feedback sc Hq Hask Hc Ha He Hx).
    cbn [advanced asked score question].
    rewrite Hn, length_app. now repeat split.
  - apply button_eqb_eq in Hs.
    rewrite (interact_skip api w st q Hq Hask Hs), Hs.
    cbn [button_eqb andb advanced asked score question].
    rewrite app_nil_r, Hn. repeat split. lia.
Qed.

Lemma actions_progress (n : nat) (evs : list event) :
  forall st,
    Forall (action n) evs ->
    question_truthy st = true ->
    asked st + length evs <= n ->
    let st' := interactions evs st in
    asked st' = asked st + length evs
    /\ length (score st')
       = length (score st) + length (filter is_submit evs)
    /\ (evs <> [] -> asked st' = n -> question st' = None).
Proof.
  induction evs as [|[api w] evs IH]; intros st Hall Hask Hle; cbv zeta.
  - cbn [interactions length filter]. repeat split; try lia. now intros [].
  - apply Forall_cons_iff in Hall as [Hact Hall].
    destruct (action_step n api w st Hact Hask) as (H1 & H2 & H3).
    cbn [interactions length filter] in *.
    destruct evs as [|ev evs'].
    + cbn [interactions length filter]. rewrite H1, H2.
      destruct (is_submit (api, w)); cbn [length]; repeat split; try lia.
      * intros _ Hn. rewrite H3.
        destruct (asked st + 1 <? n) eqn:E; [| reflexivity].
        apply Nat.ltb_lt in E. lia.
      * intros _ Hn. rewrite H3.
        destruct (asked st + 1 <? n) eqn:E; [| reflexivity].
        apply Nat.ltb_lt in E. lia.
    + assert (Hask' : question_truthy (interact api w st) = true).
      { unfold question_truthy. rewrite H3.
        replace (asked st + 1 <? n) with true
          by (symmetry; apply Nat.ltb_lt; cbn [length] in Hle; lia).
        apply generate_question_truthy. }
      specialize (IH (interact api w st) Hall Hask').
      cbv zeta in IH. destruct IH as (I1 & I2 & I3).
      { rewrite H1. cbn [length] in *. lia. }
      rewrite I1, I2, H1, H2.
      destruct (is_submit (api, w)); cbn [length] in *; repeat split;
        try lia; intros _ Hn; apply I3; try discriminate; lia.
Qed.

(** C2, as the claim states it, fails: in a run of one question that is
    skipped, the one action leaves [asked = 1] and no current question,
    and the results screen is not shown: the session is not COMPLETE. *)
Lemma skipped_run_is_not_complete :
  let api := canned_api "Score: 9/10" in
  let st := interactions [(api, sample_widgets 1 "" SkipButton)]
              (interact api (sample_widgets 1 "" StartPractice)
                 fresh_session) in
  st = {| question := None; asked := 1; score := [] |}
  /\ results_shown (sample_widgets 1 "" NoButton) st = false.
Proof. split; reflexivity. Qed.

(** C2, amended.  For every run started with [num_questions = n] and
    kept at that value, after exactly [n] submit-or-skip actions the
    current question is cleared, [asked] is [n] and the results hold
    one entry per submit and none per skip; the session is COMPLETE,
    its results shown, exactly when one of the actions was a submit. *)
Theorem run_ends_after_num_questions
  (n : nat) (api0 : Genai) (w0 : widgets) (st0 : session)
  (evs : list event) :
  1 <= n ->
  question st0 = None -> clicked w0 = StartPractice ->
  num_questions w0 = n ->
  Forall (action n) evs -> length evs = n ->
  let st := interactions evs (interact api0 w0 st0) in
  question st = None
  /\ asked st = n
  /\ length (score st) = length (filter is_submit evs)
  /\ (forall w, num_questions w = n ->
                (COMPLETE w st
                 <-> Exists (fun ev => is_submit ev = true) evs)).
Proof.
  intros Hn Hq Hc Hw0 Hall Hlen. cbv zeta.
  rewrite (interact_start api0 w0 st0 Hq Hc).
  destruct (actions_progress n evs (started w0) Hall) as (H1 & H2 & H3).
  { apply generate_question_truthy. }
  { cbn [started asked]. lia. }
  cbv zeta in *. cbn [started asked score length] in H1, H2.
  assert (Hne : evs <> []) by (destruct evs; [simpl in Hlen; lia | discriminate]).
  assert (Hq' : question (interactions evs (started w0)) = None)
    by (apply H3; [exact Hne | lia]).
  assert (Ha : asked (interactions evs (started w0)) = n) by lia.
  split; [exact Hq' | split; [exact Ha | split; [lia |]]].
  intros w Hw. unfold COMPLETE, results_shown. rewrite Hw, Ha, Nat.leb_refl.
  cbn [andb]. split.
  - intros [_ Hs].
    destruct (score (interactions evs (started w0))) as [|e es] eqn:E;
      [discriminate |].
    cbn [length] in H2.
    destruct (filter is_submit evs) as [|ev evs'] eqn:F; [discriminate |].
    apply Exists_exists. exists ev.
    assert (Hin : In ev (filter is_submit evs)) by (rewrite F; now left).
    apply filter_In in Hin. exact Hin.
  - intros Hex. split; [exact Hq' |].
    apply Exists_exists in Hex as (ev & Hin & Hev).
    assert (Hf : In ev (filter is_submit evs)) by (now apply filter_In).
    destruct (filter is_submit evs) as [|ev' evs']; [now destruct Hf |].
    now destruct (score (interactions evs (started w0))).
Qed.

Lemma run_ends_after_num_questions_witness :
  let api := canned_api "Score: 9/10" in
  let evs := [(api, sample_widgets 2 "I am diligent." SubmitButton);
              (api, sample_widgets 2 "" SkipButton)] in
  let st := interactions evs
              (interact api (sample_widgets 2 "" StartPractice)
                 fresh_session) in
  question st = None
  /\ asked st = 2
  /\ length (score st) = length (filter is_submit evs)
  /\ (forall w, num_questions w = 2 ->
                (COMPLETE w st
                 <-> Exists (fun ev => is_submit ev = true) evs)).
Proof.
  apply (run_ends_after_num_questions 2 (canned_api "Score: 9/10")
           (sample_widgets 2 "" StartPractice) fresh_session).
  - lia.
  - reflexivity.
  - reflexivity.
  - reflexivity.
  - constructor; [split; [reflexivity | left; reflexivity] |].
    constructor; [split; [reflexivity | right; reflexivity] |].
    constructor.
  - reflexivity.
Defined.

(* ------------------------------------------------------------------ *)
(** ** The invariant of the session *)

Lemma good_fresh (n : nat) : good n fresh_session.
Proof. repeat split; simpl; try lia; discriminate. Qed.

Lemma good_interact (n : nat) (api : Genai) (w : widgets) (st : session) :
  1 <= n -> num_questions w = n -> good n st -> good n (interact api w st).
Proof.
  intros Hn Hw (G1 & G2 & G3).
  destruct (interact_cases api w st)
    as [-> | [-> | [[_ ->] | (Hask & added & Hlen & ->)]]].
  - exact (conj G1 (conj G2 G3)).
  - apply good_fresh.
  - split; [| split]; cbn [started asked score question length]; try lia.
    intros q Hq. injection Hq as <-.
    split; [apply generate_question_truthy | lia].
  - unfold question_truthy in Hask.
    destruct (question st) as [q |] eqn:Hq; [| discriminate].
    destruct (G3 q eq_refl) as [_ Hlt].
    split; [| split]; cbn [advanced asked score question].
    + lia.
    + rewrite length_app. lia.
    + intros q'. rewrite Hw.
      destruct (asked st + 1 <? n) eqn:E; [| discriminate].
      intros H. injection H as <-.
      split; [apply generate_question_truthy | now apply Nat.ltb_lt].
Qed.

Lemma reachable_good (n : nat) (st : session) :
  1 <= n -> reachable n st -> good n st.
Proof.
  intros Hn H. induction H as [| api w st _ IH Hw].
  - apply good_fresh.
  - now apply good_interact.
Qed.

(** C3, as the claim states it, fails: the slider can be moved during a
    run.  After a start and two submits at [num_questions = 3], moving
    the slider to 1 leaves [asked = 2] above [num_questions = 1], and
    the third question is still pending although [asked] has reached
    [num_questions] and the results are non-empty. *)
Lemma slider_moved_during_run :
  let api := canned_api "Score: 9/10" in
  let w := sample_widgets 1 "" NoButton in
  let st := interactions
              [(api, sample_widgets 3 "" StartPractice);
               (api, sample_widgets 3 "First." SubmitButton);
               (api, sample_widgets 3 "Second." SubmitButton);
               (api, w)]
              fresh_session in
  slider_range w
  /\ num_questions w = 1
  /\ asked st = 2
  /\ length (score st) = 2
  /\ question st = Some "Why do you want this job?".
Proof. repeat split; unfold slider_range; simpl; lia. Qed.

(** C3, amended.  In every session state reachable while
    [num_questions] keeps one value [n] of the slider, [asked <= n] and
    [len(results) <= asked] hold, and whenever [asked >= n] and the
    results are non-empty the current question is cleared. *)
Theorem invariant_with_fixed_num_questions (n : nat) (st : session) :
  1 <= n <= 5 ->
  reachable n st ->
  asked st <= n
  /\ length (score st) <= asked st
  /\ (n <= asked st -> score st <> [] -> question st = None).
Proof.
  intros [Hn _] H. destruct (reachable_good n st Hn H) as (G1 & G2 & G3).
  repeat split; try assumption.
  intros Hge _. destruct (question st) as [q |]; [| reflexivity].
  destruct (G3 q eq_refl) as [_ Hlt]. lia.
Qed.

Lemma invariant_with_fixed_num_questions_witness :
  let api := canned_api "Score: 9/10" in
  let st := interact api (sample_widgets 1 "Done." SubmitButton)
              (interact api (sample_widgets 1 "" StartPractice)
                 fresh_session) in
  asked st <= 1
  /\ length (score st) <= asked st
  /\ (1 <= asked st -> score st <> [] -> question st = None).
Proof.
  apply (invariant_with_fixed_num_questions 1).
  - lia.
  - apply reach_interact; [| reflexivity].
    apply reach_interact; [| reflexivity].
    apply reach_fresh.
Defined.

(* ------------------------------------------------------------------ *)
(** ** The fallback feedback and the default score *)

(** C10.  The extractor reads exactly 7.0 from the fallback feedback of
    the evaluator; 7.0 is also what it returns when no score phrase is
    found; so the entry a Submit appends after a failed model call
    carries the fallback feedback and the score 7.0. *)
Theorem fallback_feedback_scores_default :
  extract_score fallback_feedback = Returns float_7_0
  /\ (forall feedback,
        (forall N pre, ~ score_at N pre feedback) ->
        extract_score feedback = Returns float_7_0)
  /\ (forall api w st q,
        ASKING st -> question st = Some q ->
        clicked w = SubmitButton ->
        truthy (strip (user_answer w)) = true ->
        call_fails api (evaluation_prompt q (user_answer w)) ->
        score (interact api w st)
        = (score st
           ++ [entry_of q (user_answer w) fallback_feedback float_7_0])%list).
Proof.
  split; [reflexivity | split; [apply extract_score_no_phrase |]].
  intros api w st q Hask Hq Hc Ha Hfail.
  assert (Ht : truthy q = true).
  { unfold ASKING, question_truthy in Hask. now rewrite Hq in Hask. }
  rewrite (interact_submit api w st q fallback_feedback float_7_0);
    auto using evaluate_answer_failure.
Qed.

Lemma fallback_feedback_scores_default_witness :
  let w := sample_widgets 2 "I am diligent." SubmitButton in
  score (interact failing_api w (started w))
  = ([] ++ [entry_of "Tell me about yourself." "I am diligent."
              fallback_feedback float_7_0])%list.
Proof.
  apply (proj2 (proj2 fallback_feedback_scores_default) failing_api
           (sample_widgets 2 "I am diligent." SubmitButton)
           (started (sample_widgets 2 "I am diligent." SubmitButton))
           "Tell me about yourself.");
    try reflexivity.
  apply failing_api_fails.
Defined.

(* ================================================================== *)
(** * Further properties of the script *)

(** ** The buttons that clear or restart *)

(** X1.  The Reset button of the sidebar clears the session whatever
    its state: no current question, [asked] 0, no results. *)
Theorem reset_clears_session (api : Genai) (w : widgets) (st : session) :
  clicked w = ResetButton ->
  interact api w st = fresh_session
  /\ question (interact api w st) = None
  /\ asked (interact api w st) = 0
  /\ score (interact api w st) = [].
Proof.
  intros Hc.
  assert (H : interact api w st = fresh_session).
  { rewrite interact_settle. unfold script, st_button. now rewrite Hc. }
  rewrite H. now repeat split.
Qed.

Lemma reset_clears_session_witness :
  let api := canned_api "Score: 9/10" in
  let st := interact api (sample_widgets 3 "Done." SubmitButton)
              (started (sample_widgets 3 "" StartPractice)) in
  interact api (sample_widgets 3 "" ResetButton) st = fresh_session
  /\ question (interact api (sample_widgets 3 "" ResetButton) st) = None
  /\ asked (interact api (sample_widgets 3 "" ResetButton) st) = 0
  /\ score (interact api (sample_widgets 3 "" ResetButton) st) = [].
Proof.
  exact (reset_clears_session (canned_api "Score: 9/10")
           (sample_widgets 3 "" ResetButton)
           (interact (canned_api "Score: 9/10")
              (sample_widgets 3 "Done." SubmitButton)
              (started (sample_widgets 3 "" StartPractice)))
           eq_refl).
Defined.

Lemma interact_falls_through (api : Genai) (w : widgets) (st : session) :
  st_button w ResetButton = false ->
  st_button w SubmitButton = false ->
  st_button w SkipButton = false ->
  (question st = None -> st_button w StartPractice = false) ->
  interact api w st = settle (results_block w st).
Proof.
  intros Hr Hs Hk Hstart. rewrite interact_settle.
  unfold script, main_block, submit_handler, skip_handler, question_truthy.
  cbn [initialize]. rewrite Hr, Hs, Hk.
  destruct (question st) as [q |] eqn:Hq.
  - now destruct (st_button w StartPractice || truthy q).
  - now rewrite (Hstart eq_refl).
Qed.

(** X2.  Practice Again, the button of the results screen, clears the
    session when that screen is shown; where it is not shown the button
    does not exist and the state stays as it is. *)
Theorem practice_again_clears_session
  (api : Genai) (w : widgets) (st : session) :
  clicked w = PracticeAgain ->
  interact api w st = if results_shown w st then fresh_session else st.
Proof.
  intros Hc. rewrite interact_falls_through;
    try (unfold st_button; now rewrite Hc).
  unfold results_block, st_button. rewrite Hc. cbn [button_eqb].
  now destruct (results_shown w st).
Qed.

Lemma practice_again_clears_session_witness :
  let api := canned_api "Score: 9/10" in
  let st := interact api (sample_widgets 1 "Done." SubmitButton)
              (started (sample_widgets 1 "" StartPractice)) in
  interact api (sample_widgets 1 "" PracticeAgain) st
  = if results_shown (sample_widgets 1 "" PracticeAgain) st
    then fresh_session else st.
Proof.
  exact (practice_again_clears_session (canned_api "Score: 9/10")
           (sample_widgets 1 "" PracticeAgain)
           (interact (canned_api "Score: 9/10")
              (sample_widgets 1 "Done." SubmitButton)
              (started (sample_widgets 1 "" StartPractice)))
           eq_refl).
Defined.

(** X3.  Start Practice begins a run only when no question is stored:
    it then drops the results of the run before, sets [asked] to 0 and
    asks the first template of the mode; pressed while a question is
    stored it changes nothing, so it cannot restart a run. *)
Theorem start_practice_begins_run
  (api : Genai) (w : widgets) (st : session) :
  clicked w = StartPractice ->
  (question st = None ->
   interact api w st
   = {| question := Some (generate_question 0 (role w) (domain w) (mode w));
        asked := 0; score := [] |}
   /\ selected_template 0 (domain w) (mode w)
      = nth 0 (question_templates (domain w) (mode w)) "")
  /\ (question st <> None -> interact api w st = st).
Proof.
  intros Hc. split.
  - intros Hq. split; [now apply interact_start |].
    unfold selected_template. now rewrite question_templates_length.
  - intros Hq. rewrite interact_falls_through;
      try (unfold st_button; now rewrite Hc).
    unfold results_block, st_button. rewrite Hc. cbn [button_eqb].
    now destruct (results_shown w st).
Qed.

Lemma start_practice_begins_run_witness :
  let api := canned_api "Score: 9/10" in
  let w := sample_widgets 2 "" StartPractice in
  let done := interact api (sample_widgets 1 "Done." SubmitButton)
                (started (sample_widgets 1 "" StartPractice)) in
  interact api w done
  = {| question := Some "Tell me about yourself."; asked := 0; score := [] |}
  /\ interact api w (started w) = started w.
Proof.
  split.
  - apply (proj1 (start_practice_begins_run (canned_api "Score: 9/10")
                    (sample_widgets 2 "" StartPractice)
                    (interact (canned_api "Score: 9/10")
                       (sample_widgets 1 "Done." SubmitButton)
                       (started (sample_widgets 1 "" StartPractice)))
                    eq_refl)).
    reflexivity.
  - apply (proj2 (start_practice_begins_run (canned_api "Score: 9/10")
                    (sample_widgets 2 "" StartPractice)
                    (started (sample_widgets 2 "" StartPractice))
                    eq_refl)).
    discriminate.
Defined.

(** ** The Skip handler and the runs without a button *)

(** X4.  Skip, while a question is pending, adds one to [asked] and
    leaves the results as they are; the next question is generated when
    [asked] is still below [num_questions], and the current question is
    cleared otherwise.  The model is not called. *)
Theorem skip_counts_without_result
  (api api' : Genai) (w : widgets) (st : session) :
  ASKING st -> clicked w = SkipButton ->
  score (interact api w st) = score st
  /\ asked (interact api w st) = asked st + 1
  /\ question (interact api w st)
     = (if asked st + 1 <? num_questions w
        then Some (generate_question (asked st + 1) (role w) (domain w)
                     (mode w))
        else None)
  /\ interact api w st = interact api' w st.
Proof.
  intros Hask Hc. unfold ASKING, question_truthy in Hask.
  destruct (question st) as [q |] eqn:Hq; [| discriminate].
  rewrite (interact_skip api w st q Hq Hask Hc).
  rewrite (interact_skip api' w st q Hq Hask Hc).
  cbn [advanced score asked question]. rewrite app_nil_r. now repeat split.
Qed.

Lemma skip_counts_without_result_witness :
  let w := sample_widgets 2 "" SkipButton in
  score (interact failing_api w (started w)) = []
  /\ asked (interact failing_api w (started w)) = 0 + 1
  /\ question (interact failing_api w (started w))
     = (if 0 + 1 <? num_questions w
        then Some (generate_question (0 + 1) (role w) (domain w) (mode w))
        else None)
  /\ interact failing_api w (started w)
     = interact (canned_api "Score: 9/10") w (started w).
Proof.
  exact (skip_counts_without_result failing_api (canned_api "Score: 9/10")
           (sample_widgets 2 "" SkipButton)
           (started (sample_widgets 2 "" SkipButton)) eq_refl eq_refl).
Defined.

(** X5.  A run that no button caused (the slider moved, the domain or
    the answer edited, another role or mode picked) changes nothing in
    the session state, whatever the widget values are. *)
Theorem widget_change_keeps_session
  (api : Genai) (w : widgets) (st : session) :
  clicked w = NoButton -> interact api w st = st.
Proof.
  intros Hc. rewrite interact_falls_through;
    try (unfold st_button; now rewrite Hc).
  unfold results_block, st_button. rewrite Hc. cbn [button_eqb].
  now destruct (results_shown w st).
Qed.

Lemma widget_change_keeps_session_witness :
  let st := started (sample_widgets 3 "" StartPractice) in
  interact failing_api (sample_widgets 1 "half an answer" NoButton) st = st.
Proof.
  exact (widget_change_keeps_session failing_api
           (sample_widgets 1 "half an answer" NoButton)
           (started (sample_widgets 3 "" StartPractice)) eq_refl).
Defined.

(** X6.  An interaction settles after one rerun at most: [st.rerun()]
    never starts a chain of runs.  Two runs of fuel give a state from
    any stored session, more fuel gives the same state, and one run
    falls short exactly when the first run asked for a rerun. *)
Theorem rerun_settles
  (fuel : nat) (api : Genai) (w : widgets) (ss : option session) :
  run (S (S fuel)) api w ss = Some (settle (script api w ss))
  /\ (run 1 api w ss = None <-> exists ss', script api w ss = Rerun ss').
Proof.
  split.
  - cbn [run]. destruct (script api w ss); try reflexivity.
    now rewrite script_no_click.
  - cbn [run]. destruct (script api w ss) as [st | ss' | e st]; split;
      try discriminate; try (intros [ss0 H]; discriminate).
    + intros _. now exists ss'.
    + reflexivity.
Qed.

(* ------------------------------------------------------------------ *)
(** ** The scores that come out of the extractor *)

Lemma shr_1_nonneg (mrs : shr_record) :
  (0 <= shr_m mrs)%Z -> (0 <= shr_m (shr_1 mrs))%Z.
Proof.
  destruct mrs as [m r s]. destruct m as [|[p|p|]|[p|p|]]; simpl; lia.
Qed.

Lemma iter_shr_1_nonneg (p : positive) (mrs : shr_record) :
  (0 <= shr_m mrs)%Z -> (0 <= shr_m (iter_pos shr_1 p mrs))%Z.
Proof.
  revert mrs. induction p as [p IH | p IH |]; intros mrs H; simpl.
  - apply IH, IH. now apply shr_1_nonneg.
  - now apply IH, IH.
  - now apply shr_1_nonneg.
Qed.

Lemma shr_fexp_nonneg (m e : Z) (l : location) :
  (0 <= m)%Z -> (0 <= shr_m (fst (shr_fexp 53 1024 m e l)))%Z.
Proof.
  intros H. unfold shr_fexp, shr.
  assert (H0 : (0 <= shr_m (shr_record_of_loc m l))%Z)
    by (destruct l as [|[]]; exact H).
  match goal with |- context [match ?n with _ => _ end] => destruct n end;
    cbn [fst]; try exact H0.
  now apply iter_shr_1_nonneg.
Qed.

Lemma round_nearest_even_nonneg (m : Z) (l : location) :
  (0 <= m)%Z -> (0 <= round_nearest_even m l)%Z.
Proof.
  intros H. destruct l as [|[]]; simpl; try destruct (Z.even m); lia.
Qed.

(** Rounding a mantissa that is not below zero gives a float that is
    not below zero. *)
Lemma binary_round_aux_nonnegative (mx ex : Z) (lx : location) :
  (0 <= mx)%Z -> nonnegative (binary_round_aux 53 1024 false mx ex lx) = true.
Proof.
  intros H. unfold binary_round_aux.
  pose proof (shr_fexp_nonneg mx ex lx H) as H1.
  destruct (shr_fexp 53 1024 mx ex lx) as [mrs' e']. cbn [fst] in H1.
  pose proof (shr_fexp_nonneg _ e' loc_Exact
                (round_nearest_even_nonneg _ (loc_of_shr_record mrs') H1))
    as H2.
  destruct (shr_fexp 53 1024 _ e' loc_Exact) as [mrs'' e''].
  cbn [fst] in H2.
  destruct (shr_m mrs'') as [|m|m]; [reflexivity | | lia].
  now destruct (Z.leb e'' (1024 - 53)).
Qed.

Lemma float_of_ratio_nonnegative (m : Z) (d : positive) :
  nonnegative (float_of_ratio m d) = true.
Proof.
  destruct m as [|p|p]; try reflexivity.
  unfold float_of_ratio, SFdiv, SFdiv_core_binary.
  set (m' := match _ with Zpos _ => _ | Z0 => _ | Zneg _ => _ end).
  assert (Hm : (0 <= m')%Z).
  { subst m'.
    match goal with |- context [match ?s with _ => _ end] => destruct s end;
      try lia.
    apply Z.shiftl_nonneg. lia. }
  pose proof (Z_div_mod m' (Zpos d) ltac:(lia)) as Hdiv.
  destruct (Z.div_eucl m' (Zpos d)) as [q r].
  apply binary_round_aux_nonnegative. nia.
Qed.

Lemma float_of_str_nonnegative (s : string) (x : float) :
  float_of_str s = Returns x -> nonnegative x = true.
Proof.
  unfold float_of_str. destruct (split_point s) as [i [f |]].
  - destruct (is_digits i && is_digits f); [| discriminate].
    intros H. injection H as <-. apply float_of_ratio_nonnegative.
  - destruct (is_digits i); [| discriminate].
    intros H. injection H as <-. apply float_of_ratio_nonnegative.
Qed.

(** X7.  [extract_score] never raises: the text it hands to [float] is
    always a number [float] can read.  The score it returns is never
    NaN and never below zero. *)
Theorem extract_score_is_a_score (feedback : string) :
  exists x, extract_score feedback = Returns x /\ nonnegative x = true.
Proof.
  destruct (extract_score_returns feedback) as [x Hx]. exists x.
  split; [exact Hx |].
  unfold extract_score in Hx.
  destruct (re_search true score_pattern feedback) as [g |].
  - destruct (group 1 g) as [t |]; [| discriminate].
    now apply (float_of_str_nonnegative t).
  - injection Hx as <-. reflexivity.
Qed.

(** X8.  What the score pattern matches.  [re.match] succeeds on a text
    exactly when the text begins with a score phrase, and group 1 then
    holds the number of that phrase and nothing else; [re.search] finds
    nothing exactly when no score phrase stands anywhere in the text. *)
Theorem score_pattern_matches_score_phrases (s : string) :
  (forall g,
      re_match true score_pattern s = Some g
      <-> exists N m rest, s = m ++ rest /\ score_phrase N m /\ g = [(1, N)])
  /\ (re_search true score_pattern s = None
      <-> forall N pre, ~ score_at N pre s).
Proof.
  split.
  - intros g. split.
    + apply score_pattern_inv.
    + intros (N & m & rest & -> & Hm & ->). now apply score_pattern_match.
  - split.
    + intros Hnone N pre Hat.
      apply score_at_found in Hat as [g Hg]. congruence.
    + intros Hnone. apply re_search_none. intros a b ->.
      destruct (re_match true score_pattern b) as [g |] eqn:E;
        [| reflexivity].
      apply (match_is_score_at a) in E as (N & Hat & _).
      now apply Hnone in Hat.
Qed.

(* ------------------------------------------------------------------ *)
(** ** When the question carries the domain suffix *)







(* ------------------------------------------------------------------ *)
(** ** What every session state satisfies *)

(** Every interaction, with what the Submit handler appends. *)
Lemma interact_cases_entries (api : Genai) (w : widgets) (st : session) :
  interact api w st = st
  \/ interact api w st = fresh_session
  \/ (question st = None /\ interact api w st = started w)
  \/ (exists q,
        question st = Some q /\ truthy q = true
        /\ (interact api w st = advanced w st []
            \/ exists feedback sc,
                 truthy (strip (user_answer w)) = true
                 /\ extract_score feedback = Returns sc
                 /\ interact api w st
                    = advanced w st
                        [entry_of q (user_answer w) feedback sc])).
Proof.
  assert (Hidle : st_button w ResetButton = false ->
                  st_button w SubmitButton = false ->
                  st_button w SkipButton = false ->
                  (question st = None -> st_button w StartPractice = false) ->
                  interact api w st = st \/ interact api w st = fresh_session).
  { intros H1 H2 H3 H4. rewrite interact_falls_through by assumption.
    unfold results_block.
    destruct (results_shown w st); [| now left].
    destruct (st_button w PracticeAgain); [now right | now left]. }
  assert (Hunasked : question_truthy st = false ->
                     st_button w StartPractice = false ->
                     st_button w ResetButton = false ->
                     interact api w st = st \/ interact api w st = fresh_session).
  { intros Hq Hs Hr. rewrite interact_settle. unfold script, main_block.
    cbn [initialize]. rewrite Hr, Hs, Hq. cbn [orb]. unfold results_block.
    destruct (results_shown w st); [| now left].
    destruct (st_button w PracticeAgain); [now right | now left]. }
  unfold st_button in Hidle, Hunasked.
  destruct (clicked w) eqn:Hc; cbn [button_eqb] in Hidle, Hunasked.
  - destruct Hidle as [H | H]; auto.
  - right. left. rewrite interact_settle. unfold script, st_button.
    now rewrite Hc.
  - destruct (question st) as [q |] eqn:Hq.
    + destruct Hidle as [H | H]; auto. discriminate.
    + right. right. left. split; [reflexivity |]. now apply interact_start.
  - destruct (question_truthy st) eqn:Hask;
      [| destruct Hunasked as [H | H]; auto].
    unfold question_truthy in Hask.
    destruct (question st) as [q |] eqn:Hq; [| discriminate].
    destruct (truthy (strip (user_answer w))) eqn:Ha;
      [| left; now apply interact_submit_blank].
    destruct (evaluate_answer_returns api (user_answer w) q (mode w))
      as [feedback He].
    destruct (extract_score_returns feedback) as [sc Hx].
    right. right. right. exists q. repeat split; auto. right.
    exists feedback, sc. repeat split; auto. now apply interact_submit.
  - destruct (question_truthy st) eqn:Hask;
      [| destruct Hunasked as [H | H]; auto].
    unfold question_truthy in Hask.
    destruct (question st) as [q |] eqn:Hq; [| discriminate].
    right. right. right. exists q. repeat split; auto. left.
    now apply (interact_skip api w st q).
  - destruct Hidle as [H | H]; auto.
Qed.

Lemma sound_fresh : sound fresh_session.
Proof.
  unfold sound. cbn [fresh_session score asked question length].
  repeat split; try lia; try discriminate. constructor.
Qed.

Lemma sound_interact (api : Genai) (w : widgets) (st : session) :
  slider_range w -> sound st -> sound (interact api w st).
Proof.
  intros [_ Hmax] (S1 & S2 & S3 & S4).
  destruct (interact_cases_entries api w st)
    as [-> | [-> | [[_ ->] | (q & Hq & Ht & H)]]].
  - exact (conj S1 (conj S2 (conj S3 S4))).
  - apply sound_fresh.
  - unfold sound. cbn [started score asked question length].
    split; [lia | split; [lia | split; [| constructor]]].
    intros q Hq. injection Hq as <-.
    split; [apply generate_question_truthy | lia].
  - destruct (S3 q Hq) as [_ Hlt].
    assert (Hnext : forall added,
               length added <= 1 -> Forall entry_ok added ->
               sound (advanced w st added)).
    { intros added Hlen Hok. unfold sound.
      cbn [advanced score asked question].
      split; [rewrite length_app; lia | split; [lia | split]].
      - intros q'. destruct (asked st + 1 <? num_questions w) eqn:E;
          [| discriminate].
        intros H'. injection H' as <-. apply Nat.ltb_lt in E.
        split; [apply generate_question_truthy | lia].
      - apply Forall_app. now split. }
    destruct H as [-> | (feedback & sc & Ha & Hx & ->)].
    + apply Hnext; [simpl; lia | constructor].
    + apply Hnext; [simpl; lia |].
      constructor; [| constructor]. now repeat split.
Qed.

Lemma reachable_session_sound (st : session) :
  reachable_session st -> sound st.
Proof.
  intros H. induction H as [| api w st _ IH Hw].
  - apply sound_fresh.
  - now apply sound_interact.
Qed.

(** X10.  Whatever the slider does within its bounds, in every session
    state the results are no more than the questions counted, [asked]
    never passes 5, and a stored question is a non-empty text with
    [asked] below 5: its template index [asked % 5] is [asked] itself,
    so the rotation never wraps inside a run. *)
Theorem session_counts_bounded (st : session) :
  reachable_session st ->
  length (score st) <= asked st
  /\ asked st <= 5
  /\ (forall q, question st = Some q ->
                q <> "" /\ asked st < 5 /\ asked st mod 5 = asked st).
Proof.
  intros H. destruct (reachable_session_sound st H) as (S1 & S2 & S3 & _).
  repeat split; try assumption.
  - apply truthy_true. now apply (S3 q).
  - now apply (S3 q).
  - apply Nat.mod_small. now apply (S3 q).
Qed.

Lemma session_counts_bounded_witness :
  let api := canned_api "Score: 9/10" in
  let st := interactions
              [(api, sample_widgets 5 "" StartPractice);
               (api, sample_widgets 5 "First." SubmitButton);
               (api, sample_widgets 2 "" NoButton);
               (api, sample_widgets 2 "" SkipButton)]
              fresh_session in
  length (score st) <= asked st
  /\ asked st <= 5
  /\ (forall q, question st = Some q ->
                q <> "" /\ asked st < 5 /\ asked st mod 5 = asked st).
Proof.
  apply session_counts_bounded.
  repeat (apply session_interact; [| unfold slider_range; simpl; lia]).
  apply session_fresh.
Defined.

(** X11.  Every stored result is consistent: its score is what
    [extract_score] reads from its own feedback, its answer is not
    blank, and its question is a non-empty text. *)
Theorem stored_results_consistent (st : session) (it : item) :
  reachable_session st -> In it (score st) ->
  extract_score (item_feedback it) = Returns (item_score it)
  /\ strip (item_answer it) <> ""
  /\ item_question it <> "".
Proof.
  intros H Hin. destruct (reachable_session_sound st H) as (_ & _ & _ & S4).
  rewrite Forall_forall in S4. destruct (S4 it Hin) as (E1 & E2 & E3).
  repeat split; [exact E1 | now apply truthy_true | now apply truthy_true].
Qed.

Lemma stored_results_consistent_witness :
  let it := entry_of "Tell me about yourself." "I am diligent."
              "Score: 9/10" (S754_finite false 5066549580791808 (-49)) in
  extract_score (item_feedback it) = Returns (item_score it)
  /\ strip (item_answer it) <> ""
  /\ item_question it <> "".
Proof.
  apply (stored_results_consistent
           (interact (canned_api "Score: 9/10")
              (sample_widgets 2 "I am diligent." SubmitButton)
              (interact (canned_api "Score: 9/10")
                 (sample_widgets 2 "" StartPractice) fresh_session))).
  - repeat (apply session_interact; [| unfold slider_range; simpl; lia]).
    apply session_fresh.
  - left. reflexivity.
Defined.

(** X12.  With the slider unchanged, the question screen and the
    results screen are never up together: while a question is pending
    the results are not shown. *)
Theorem question_and_results_exclusive
  (n : nat) (st : session) (w : widgets) :
  1 <= n -> reachable n st -> num_questions w = n ->
  ASKING st -> results_shown w st = false.
Proof.
  intros Hn H Hw Hask. destruct (reachable_good n st Hn H) as (_ & _ & G3).
  unfold ASKING, question_truthy in Hask.
  destruct (question st) as [q |] eqn:Hq; [| discriminate].
  destruct (G3 q eq_refl) as [_ Hlt].
  unfold results_shown. rewrite Hw.
  replace (n <=? asked st) with false; [reflexivity |].
  symmetry. apply Nat.leb_gt. exact Hlt.
Qed.

Lemma question_and_results_exclusive_witness :
  let api := canned_api "Score: 9/10" in
  results_shown (sample_widgets 2 "" NoButton)
    (interact api (sample_widgets 2 "Done." SubmitButton)
       (interact api (sample_widgets 2 "" StartPractice) fresh_session))
  = false.
Proof.
  apply (question_and_results_exclusive 2).
  - lia.
  - apply reach_interact; [| reflexivity].
    apply reach_interact; [| reflexivity].
    apply reach_fresh.
  - reflexivity.
  - reflexivity.
Defined.

(** X14.  No interaction rewrites or removes a single stored result: it
    either clears them all or keeps them and appends one at most; and
    [asked] stays, goes up by one, or goes back to 0. *)
Theorem results_grow_or_clear (api : Genai) (w : widgets) (st : session) :
  (score (interact api w st) = []
   \/ exists added, length added <= 1
                    /\ score (interact api w st) = (score st ++ added)%list)
  /\ (asked (interact api w st) = asked st
      \/ asked (interact api w st) = asked st + 1
      \/ asked (interact api w st) = 0).
Proof.
  destruct (interact_cases api w st)
    as [-> | [-> | [[_ ->] | (_ & added & Hlen & ->)]]].
  - split; [right; exists []; split; [simpl; lia | now rewrite app_nil_r]
           | now left].
  - split; [now left | now right; right].
  - split; [now left | now right; right].
  - split; [right; now exists added | right; now left].
Qed.

(* ------------------------------------------------------------------ *)
(** ** A run of answered questions *)

Lemma submissions_progress (w : widgets) (l : list (Genai * string)) :
  forall (k : nat) (sc : list item),
    Forall (fun p => truthy (strip (snd p)) = true) l ->
    k + length l <= num_questions w ->
    let st := interactions (submissions w l)
                {| question := Some (question_at w k); asked := k;
                   score := sc |} in
    asked st = k + length l
    /\ map item_question (score st)
       = (map item_question sc ++ map (question_at w) (seq k (length l)))%list
    /\ map item_answer (score st) = (map item_answer sc ++ map snd l)%list.
Proof.
  induction l as [|[api a] l IH]; intros k sc Hok Hle; cbv zeta.
  - cbn [submissions map interactions asked score length seq].
    now rewrite !app_nil_r, Nat.add_0_r.
  - apply Forall_cons_iff in Hok as [Ha Hok]. cbn [snd] in Ha.
    cbn [submissions map interactions fst snd length] in *.
    fold (submissions w l).
    destruct (evaluate_answer_returns api a (question_at w k) (mode w))
      as [feedback He].
    destruct (extract_score_returns feedback) as [x Hx].
    rewrite (interact_submit api (answering w a) _ (question_at w k)
               feedback x); try reflexivity; try assumption;
      [| apply generate_question_truthy].
    unfold advanced. cbn [answering asked score question num_questions role
                            domain mode user_answer].
    destruct l as [|p l'].
    + cbn [submissions map interactions asked score length seq].
      rewrite !map_app. cbn [map entry_of item_question item_answer].
      repeat split; lia.
    + replace (k + 1 <? num_questions w) with true
        by (symmetry; apply Nat.ltb_lt; cbn [length] in Hle; lia).
      fold (question_at w (k + 1)).
      specialize (IH (k + 1)
                     (sc ++ [entry_of (question_at w k) a feedback x])%list
                     Hok).
      cbv zeta in IH. destruct IH as (I1 & I2 & I3);
        [cbn [length] in *; lia |].
      rewrite I1, I2, I3, !map_app.
      cbn [map entry_of item_question item_answer length seq].
      rewrite <- !app_assoc. cbn [app].
      replace (k + 1) with (S k) by lia.
      repeat split. cbn [length]. lia.
Qed.

(** X13.  In a run where every question is answered, the sidebar left
    as it is, the results hold the questions in the order they were
    asked (the templates at 0, 1, 2, ...) and, beside each, the answer
    typed for it; [asked] is the number of answers. *)
Theorem answered_run_keeps_order (w : widgets) (l : list (Genai * string)) :
  Forall (fun p => truthy (strip (snd p)) = true) l ->
  length l <= num_questions w ->
  let st := interactions (submissions w l) (started w) in
  asked st = length l
  /\ map item_question (score st)
     = map (question_at w) (seq 0 (length l))
  /\ map item_answer (score st) = map snd l.
Proof.
  intros Hok Hle.
  exact (submissions_progress w l 0 [] Hok Hle).
Qed.

Lemma answered_run_keeps_order_witness :
  let w := sample_widgets 3 "" NoButton in
  let l := [(canned_api "Score: 9/10", "I am diligent.");
            (failing_api, "I plan ahead.")] in
  let st := interactions (submissions w l) (started w) in
  asked st = length l
  /\ map item_question (score st)
     = map (question_at w) (seq 0 (length l))
  /\ map item_answer (score st) = map snd l.
Proof.
  apply answered_run_keeps_order.
  - repeat constructor.
  - simpl. lia.
Defined.

(** X15.  The role picked in the sidebar is read and passed on, and
    never used: with another role every interaction leaves the same
    session state. *)
Theorem role_never_matters
  (r : Role) (api : Genai) (w : widgets) (st : session) :
  interact api (with_role r w) st = interact api w st.
Proof.
  rewrite !interact_settle. reflexivity.
Qed.
